(** * Audit policy rule evaluator (pkg/audit/policy/checker.go)

    A shallow embedding of the audit policy checker: the normalisation
    pass of [NewPolicyRuleEvaluator], the first-match scan of
    [EvaluatePolicyRule], the per-rule predicates and the constant
    evaluator, followed by the properties proved about them. *)

From Stdlib Require Import Ascii String.
From stdpp Require Import gmap strings list fin_maps.

(** ** The Go [strings] functions used by the checker

    Go strings are byte sequences; [String.string] is a sequence of
    8-bit characters, so [String.length] is Go's [len] and [substring]
    is slicing. The definitions follow the Go standard library:
    [HasPrefix s p] is [len(s) >= len(p) && s[:len(p)] == p], and so on. *)
Module GoStrings.

Definition HasPrefix (s prefix : string) : bool :=
  (String.length prefix <=? String.length s)%nat
  && String.eqb (substring 0 (String.length prefix) s) prefix.

Definition HasSuffix (s suffix : string) : bool :=
  (String.length suffix <=? String.length s)%nat
  && String.eqb
       (substring (String.length s - String.length suffix)
                  (String.length suffix) s)
       suffix.

Definition TrimPrefix (s prefix : string) : string :=
  if HasPrefix s prefix
  then substring (String.length prefix)
                 (String.length s - String.length prefix) s
  else s.

Definition TrimSuffix (s suffix : string) : string :=
  if HasSuffix s suffix
  then substring 0 (String.length s - String.length suffix) s
  else s.

(** Membership of a byte in a cutset (the checker only uses the
    one-byte ASCII cutset ["*"], where bytes and code points agree). *)
Fixpoint inCutset (c : ascii) (cutset : string) : bool :=
  match cutset with
  | EmptyString => false
  | String d rest => Ascii.eqb c d || inCutset c rest
  end.

(** [TrimRight s cutset] drops every trailing byte of [s] that is in
    [cutset], not just one. *)
Fixpoint TrimRight (s cutset : string) : string :=
  match s with
  | EmptyString => EmptyString
  | String c rest =>
      match TrimRight rest cutset with
      | EmptyString =>
          if inCutset c cutset then EmptyString else String c EmptyString
      | kept => String c kept
      end
  end.

End GoStrings.

(** ** Data model (k8s.io/apiserver/pkg/apis/audit) *)

(** [audit.Level] and [audit.Stage] are string types. *)
Definition Level := string.
Definition Stage := string.

(** Modelled from the spec: the constant [audit.LevelNone] is declared
    in the [audit] API package, which is not part of the sources; the
    spec calls it the no-auditing level and spells it ["None"]. *)
Definition LevelNone : Level := "None".

(** [DefaultAuditLevel] is the level to audit at if no rule matches. *)
Definition DefaultAuditLevel : Level := LevelNone.

Record GroupResources := {
  Group : string;
  Resources : list string;
  ResourceNames : list string;
}.

(** [OmitManagedFields] is a [*bool] in the source: [None] is nil. *)
Record PolicyRule := {
  RuleLevel : Level;
  Users : list string;
  UserGroups : list string;
  Verbs : list string;
  RuleResources : list GroupResources;
  Namespaces : list string;
  NonResourceURLs : list string;
  RuleOmitStages : list Stage;
  RuleOmitManagedFields : option bool;
}.

Record Policy := {
  Rules : list PolicyRule;
  OmitStages : list Stage;
  OmitManagedFields : bool;
}.

(** [user.Info], as far as the checker reads it. *)
Module user.
Record Info := {
  GetName : string;
  GetGroups : list string;
}.
End user.

(** [authorizer.Attributes]: a read-only interface of getters.
    [GetUser] returns a nilable interface value, [None] is nil. *)
Record Attributes := {
  GetUser : option user.Info;
  GetVerb : string;
  IsReadOnly : bool;
  GetNamespace : string;
  GetResource : string;
  GetSubresource : string;
  GetName : string;
  GetAPIGroup : string;
  GetAPIVersion : string;
  IsResourceRequest : bool;
  GetPath : string;
}.

(** [auditinternal.RequestAuditConfigWithLevel], with the embedded
    [RequestAuditConfig] flattened. *)
Record RequestAuditConfigWithLevel := {
  CfgLevel : Level;
  CfgOmitStages : list Stage;
  CfgOmitManagedFields : bool;
}.

(** ** Matching predicates *)

(** Utility function to check whether a string slice contains a string. *)
Fixpoint hasString (slice : list string) (value : string) : bool :=
  match slice with
  | [] => false
  | s :: rest => if String.eqb s value then true else hasString rest value
  end.

(** Check whether the path matches the path specification. *)
Definition pathMatches (path spec : string) : bool :=
  if String.eqb spec "*" then true
  else if String.eqb spec path then true
  else if GoStrings.HasSuffix spec "*"
          && GoStrings.HasPrefix path (GoStrings.TrimRight spec "*")
       then true
  else false.

(** The loop over [r.NonResourceURLs] of [ruleMatchesNonResource]. *)
Fixpoint anyPathMatches (path : string) (specs : list string) : bool :=
  match specs with
  | [] => false
  | spec :: rest =>
      if pathMatches path spec then true else anyPathMatches path rest
  end.

(** Check whether the rule's non-resource URLs match the request attrs. *)
Definition ruleMatchesNonResource (r : PolicyRule) (attrs : Attributes) : bool :=
  if IsResourceRequest attrs then false
  else anyPathMatches (GetPath attrs) (NonResourceURLs r).

(** The three tests made on one resource spec [res] of a tuple, once the
    name filter has passed. *)
Definition resourceSpecMatches
    (res resource subresource combinedResource : string) : bool :=
  if String.eqb res combinedResource || String.eqb res "*" then true
  else if (0 <? String.length subresource)%nat
          && GoStrings.HasPrefix res "*/"
          && String.eqb subresource (GoStrings.TrimPrefix res "*/")
       then true
  else if GoStrings.HasSuffix res "/*"
          && String.eqb resource (GoStrings.TrimSuffix res "/*")
       then true
  else false.

(** The inner loop over [gr.Resources]. *)
Fixpoint anyResourceSpecMatches
    (gr : GroupResources) (specs : list string)
    (name resource subresource combinedResource : string) : bool :=
  match specs with
  | [] => false
  | res :: rest =>
      if ((length (ResourceNames gr) =? 0)%nat
          || hasString (ResourceNames gr) name)
         && resourceSpecMatches res resource subresource combinedResource
      then true
      else anyResourceSpecMatches gr rest
             name resource subresource combinedResource
  end.

(** The outer loop over [r.Resources]. *)
Fixpoint anyGroupResourcesMatches
    (grs : list GroupResources)
    (apiGroup name resource subresource combinedResource : string) : bool :=
  match grs with
  | [] => false
  | gr :: rest =>
      if String.eqb (Group gr) apiGroup then
        if (length (Resources gr) =? 0)%nat then true
        else if anyResourceSpecMatches gr (Resources gr)
                  name resource subresource combinedResource
             then true
        else anyGroupResourcesMatches rest
               apiGroup name resource subresource combinedResource
      else anyGroupResourcesMatches rest
             apiGroup name resource subresource combinedResource
  end.

(** If subresource, the resource in the policy must match
    "(resource)/(subresource)". *)
Definition combinedResourceOf (resource subresource : string) : string :=
  if negb (String.eqb subresource "")
  then resource +:+ "/" +:+ subresource
  else resource.

(** Check whether the rule's resource fields match the request attrs. *)
Definition ruleMatchesResource (r : PolicyRule) (attrs : Attributes) : bool :=
  if negb (IsResourceRequest attrs) then false
  else if (0 <? length (Namespaces r))%nat
          && negb (hasString (Namespaces r) (GetNamespace attrs))
       then false
  else if (length (RuleResources r) =? 0)%nat then true
  else
    let apiGroup := GetAPIGroup attrs in
    let resource := GetResource attrs in
    let subresource := GetSubresource attrs in
    let combinedResource := combinedResourceOf resource subresource in
    let name := GetName attrs in
    anyGroupResourcesMatches (RuleResources r)
      apiGroup name resource subresource combinedResource.

(** The loop over [user.GetGroups()] of [ruleMatches]. *)
Fixpoint anyGroupListed (userGroups : list string) (groups : list string) : bool :=
  match groups with
  | [] => false
  | group :: rest =>
      if hasString userGroups group then true
      else anyGroupListed userGroups rest
  end.

(** Check whether the rule matches the request attrs. *)
Definition ruleMatches (r : PolicyRule) (attrs : Attributes) : bool :=
  let user := GetUser attrs in
  if (0 <? length (Users r))%nat
     && match user with
        | None => true
        | Some u => negb (hasString (Users r) (user.GetName u))
        end
  then false
  else if (0 <? length (UserGroups r))%nat
          && match user with
             | None => true
             | Some u => negb (anyGroupListed (UserGroups r) (user.GetGroups u))
             end
       then false
  else if (0 <? length (Verbs r))%nat
          && negb (hasString (Verbs r) (GetVerb attrs))
       then false
  else if (0 <? length (Namespaces r))%nat
          || (0 <? length (RuleResources r))%nat
       then ruleMatchesResource r attrs
  else if (0 <? length (NonResourceURLs r))%nat
       then ruleMatchesNonResource r attrs
  else true.

(** [isOmitManagedFields] returns whether to omit managed fields: a
    value set inside a policy rule overrides the global policy default. *)
Definition isOmitManagedFields (policyRule : PolicyRule) (policyDefault : bool) : bool :=
  match RuleOmitManagedFields policyRule with
  | None => policyDefault
  | Some b => b
  end.

(** ** Effects: standard output and panics

    The checker prints through [fmt]. Standard output is modelled as the
    list of print calls made so far; a [Printf] keeps its format string
    and operands, since rendering a [user.Info] with [%s] depends on the
    concrete type behind the interface. A nil dereference panics. *)

Inductive fmtArg :=
| FmtString (s : string)
| FmtBool (b : bool)
| FmtUser (u : option user.Info).

Inductive Output :=
| Println (line : string)
| Printf (format : string) (args : list fmtArg).

Definition Console := list Output.

Inductive outcome (A : Type) :=
| Returned (a : A)
| Panicked (reason : string).
Arguments Returned {A} a.
Arguments Panicked {A} reason.

Definition obind {A B} (o : outcome A) (k : A -> outcome B) : outcome B :=
  match o with
  | Returned a => k a
  | Panicked reason => Panicked reason
  end.

Notation "'run' x <- o 'then' k" := (obind o (fun x => k))
  (at level 10, x name, o at level 100, k at level 200).

Definition nilDereference : string :=
  "invalid memory address or nil pointer dereference".

(** ** The string dump built by [NewPolicyRuleEvaluator] *)

Definition nl : string := String (ascii_of_nat 10) EmptyString.

Definition banner : string :=
  "===============================================================".

(** [b.WriteString(x)] and [b.WriteRune('\n')] on a [strings.Builder]
    holding [b]. *)
Definition WriteString (b x : string) : string := b +:+ x.
Definition WriteNewline (b : string) : string := b +:+ nl.

(** The loops that write one ["<bullet>item\n"] line per entry. *)
Fixpoint writeItems (bullet : string) (items : list string) (b : string) : string :=
  match items with
  | [] => b
  | item :: rest =>
      writeItems bullet rest (WriteNewline (WriteString (WriteString b bullet) item))
  end.

Definition writeGroupResources (resource : GroupResources) (b : string) : string :=
  let b := WriteNewline (WriteString (WriteString b "  - Group: ") (Group resource)) in
  let b := WriteNewline (WriteString b "    Resources:") in
  let b := writeItems "    - " (Resources resource) b in
  let b := WriteNewline (WriteString b "    ResourcesNames:") in
  writeItems "    - " (ResourceNames resource) b.

Fixpoint writeAllGroupResources (resources : list GroupResources) (b : string) : string :=
  match resources with
  | [] => b
  | resource :: rest => writeAllGroupResources rest (writeGroupResources resource b)
  end.

(** [fmt.Sprintf("%t", v)] *)
Definition sprintfBool (v : bool) : string := if v then "true" else "false".

(** The body of the loop over [policy.Rules] that dumps one rule.
    [*rule.OmitManagedFields] dereferences the pointer without a nil
    test. *)
Definition writeRule (rule : PolicyRule) (b : string) : outcome string :=
  let b := WriteNewline (WriteString (WriteString b "- Level: ") (RuleLevel rule)) in
  let b := WriteNewline (WriteString b "  Users:") in
  let b := writeItems "  - " (Users rule) b in
  let b := WriteNewline (WriteString b "  UserGroups:") in
  let b := writeItems "  - " (UserGroups rule) b in
  let b := WriteNewline (WriteString b "  Verbs:") in
  let b := writeItems "  - " (Verbs rule) b in
  let b := WriteNewline (WriteString b "  Resources:") in
  let b := writeAllGroupResources (RuleResources rule) b in
  let b := WriteNewline (WriteString b "  Namespaces:") in
  let b := writeItems "  - " (Namespaces rule) b in
  let b := WriteNewline (WriteString b "  OmitStages:") in
  let b := writeItems "  - " (RuleOmitStages rule) b in
  let b := WriteString b "  OmitManagedFields:" in
  match RuleOmitManagedFields rule with
  | None => Panicked nilDereference
  | Some v => Returned (WriteNewline (WriteString b (sprintfBool v)))
  end.

Fixpoint writeRules (rules : list PolicyRule) (b : string) : outcome string :=
  match rules with
  | [] => Returned b
  | rule :: rest => run b' <- writeRule rule b then writeRules rest b'
  end.

Definition dumpRules (rules : list PolicyRule) : outcome string :=
  let b := WriteNewline EmptyString in
  let b := WriteNewline (WriteString b banner) in
  let b := WriteNewline (WriteString b "Rules:") in
  run b <- writeRules rules b then
  let b := WriteNewline b in
  let b := WriteNewline (WriteString b banner) in
  Returned b.

(** ** Normalisation of the omitted stages *)

(** The two nested loops of [unionStages] that fill the map
    [m : map[audit.Stage]bool]. *)
Fixpoint markStages (m : gmap Stage bool) (sl : list Stage) : gmap Stage bool :=
  match sl with
  | [] => m
  | s :: rest => markStages (<[s := true]> m) rest
  end.

Fixpoint markStageLists (m : gmap Stage bool) (stageLists : list (list Stage))
  : gmap Stage bool :=
  match stageLists with
  | [] => m
  | sl :: rest => markStageLists (markStages m sl) rest
  end.

Definition setOmitStages (rule : PolicyRule) (stages : list Stage) : PolicyRule :=
  {| RuleLevel := RuleLevel rule;
     Users := Users rule;
     UserGroups := UserGroups rule;
     Verbs := Verbs rule;
     RuleResources := RuleResources rule;
     Namespaces := Namespaces rule;
     NonResourceURLs := NonResourceURLs rule;
     RuleOmitStages := stages;
     RuleOmitManagedFields := RuleOmitManagedFields rule |}.

Record policyRuleEvaluator := {
  EvaluatorPolicy : Policy;
}.

Section MapIteration.

(** Go leaves the order of [for key := range m] unspecified, and it
    may differ from one loop to the next over equal maps.
    [rangeKeys call m] is the order in which the [call]-th run of
    [unionStages] sees the keys of [m]; the properties below assume
    of it only that every key is visited once. *)
Variable rangeKeys : nat -> gmap Stage bool -> list Stage.

Definition unionStages (call : nat) (stageLists : list (list Stage)) : list Stage :=
  let m := markStageLists ∅ stageLists in
  rangeKeys call m.

(** The first loop of [NewPolicyRuleEvaluator], from rule index [i]:
    [policy.Rules[i].OmitStages = unionStages(policy.OmitStages, rule.OmitStages)]. *)
Fixpoint normalizeRulesFrom (i : nat) (policyOmitStages : list Stage)
    (rules : list PolicyRule) : list PolicyRule :=
  match rules with
  | [] => []
  | rule :: rest =>
      setOmitStages rule (unionStages i [policyOmitStages; RuleOmitStages rule])
      :: normalizeRulesFrom (S i) policyOmitStages rest
  end.

(** The policy after the in-place loop; the evaluator's copy of the
    [Policy] struct shares this rule array with the caller's. *)
Definition normalizePolicy (policy : Policy) : Policy :=
  {| Rules := normalizeRulesFrom 0 (OmitStages policy) (Rules policy);
     OmitStages := OmitStages policy;
     OmitManagedFields := OmitManagedFields policy |}.

(** [NewPolicyRuleEvaluator] creates a new policy rule evaluator. *)
Definition NewPolicyRuleEvaluator (policy : Policy) (out : Console)
  : outcome policyRuleEvaluator * Console :=
  let policy := normalizePolicy policy in
  match dumpRules (Rules policy) with
  | Panicked reason => (Panicked reason, out)
  | Returned text =>
      (Returned {| EvaluatorPolicy := policy |}, out ++ [Println text])
  end.

End MapIteration.

(** ** Evaluation *)

Definition attrsFormat : string := "

===============================================================
	attrs:
		User: %s
		Verb: %s
		IsReadOnly: %t
		Namespace: %s
		Resource: %s
		Subresource: %s
		Name: %s
		APIGroup: %s
		APIVersion: %s
		IsResourceRequest: %t
		Path: %s
===============================================================

	".

Definition attrsOperands (attrs : Attributes) : list fmtArg :=
  [ FmtUser (GetUser attrs);
    FmtString (GetVerb attrs);
    FmtBool (IsReadOnly attrs);
    FmtString (GetNamespace attrs);
    FmtString (GetResource attrs);
    FmtString (GetSubresource attrs);
    FmtString (GetName attrs);
    FmtString (GetAPIGroup attrs);
    FmtString (GetAPIVersion attrs);
    FmtBool (IsResourceRequest attrs);
    FmtString (GetPath attrs) ].

(** The configuration returned for a matching rule. *)
Definition ruleConfig (rule : PolicyRule) (policyDefault : bool)
  : RequestAuditConfigWithLevel :=
  {| CfgLevel := RuleLevel rule;
     CfgOmitStages := RuleOmitStages rule;
     CfgOmitManagedFields := isOmitManagedFields rule policyDefault |}.

(** The configuration returned when no rule matches. *)
Definition defaultConfig (p : Policy) : RequestAuditConfigWithLevel :=
  {| CfgLevel := DefaultAuditLevel;
     CfgOmitStages := OmitStages p;
     CfgOmitManagedFields := OmitManagedFields p |}.

(** The loop [for _, rule := range p.Rules] with its early return. *)
Fixpoint scanRules (p : Policy) (rules : list PolicyRule) (attrs : Attributes)
  : RequestAuditConfigWithLevel :=
  match rules with
  | [] => defaultConfig p
  | rule :: rest =>
      if ruleMatches rule attrs
      then ruleConfig rule (OmitManagedFields p)
      else scanRules p rest attrs
  end.

Definition EvaluatePolicyRule (p : policyRuleEvaluator) (attrs : Attributes)
    (out : Console) : RequestAuditConfigWithLevel * Console :=
  let out := out ++ [Printf attrsFormat (attrsOperands attrs)] in
  (scanRules (EvaluatorPolicy p) (Rules (EvaluatorPolicy p)) attrs, out).

(** ** The constant evaluator *)

Record fakePolicyRuleEvaluator := {
  level : Level;
  stage : list Stage;
}.

(** [NewFakePolicyRuleEvaluator] creates a fake policy rule evaluator
    that returns a constant level for all requests (for testing). *)
Definition NewFakePolicyRuleEvaluator (level : Level) (stage : list Stage)
  : fakePolicyRuleEvaluator :=
  {| level := level; stage := stage |}.

(** [OmitManagedFields] is left at the zero value of [bool]. *)
Definition fakeEvaluatePolicyRule (f : fakePolicyRuleEvaluator) (_ : Attributes)
    (out : Console) : RequestAuditConfigWithLevel * Console :=
  ({| CfgLevel := level f;
      CfgOmitStages := stage f;
      CfgOmitManagedFields := false |}, out).

(** [auditinternal.PolicyRuleEvaluator]: the interface both evaluators
    implement. *)
Class PolicyRuleEvaluator (E : Type) := {
  evaluate : E -> Attributes -> Console -> RequestAuditConfigWithLevel * Console;
}.

#[export] Instance policyRuleEvaluator_impl : PolicyRuleEvaluator policyRuleEvaluator :=
  {| evaluate := EvaluatePolicyRule |}.

#[export] Instance fakePolicyRuleEvaluator_impl : PolicyRuleEvaluator fakePolicyRuleEvaluator :=
  {| evaluate := fakeEvaluatePolicyRule |}.

(** ** The policy in memory

    [NewPolicyRuleEvaluator] receives a [*audit.Policy] and assigns to
    [policy.Rules[i].OmitStages]: it rewrites the backing array of the
    [Rules] slice. The evaluator it returns embeds a copy of the
    [Policy] struct, and the [Rules] slice header of that copy points
    at the same array, as does the header of every evaluator built from
    the policy before. A [Process] holds the backing arrays of rules by
    address, together with standard output. The [OmitStages] slices are
    replaced whole and never written through, so they stay values. *)

Record PolicyRef := {
  RulesAt : nat;
  RefOmitStages : list Stage;
  RefOmitManagedFields : bool;
}.

Record Process := {
  arrays : gmap nat (list PolicyRule);
  stdout : Console;
}.

(** The rules behind the slice header at [a]; no array is the nil
    slice. *)
Definition rulesAt (w : Process) (a : nat) : list PolicyRule :=
  default [] (arrays w !! a).

(** The [Policy] value read through a reference. *)
Definition policyAt (w : Process) (p : PolicyRef) : Policy :=
  {| Rules := rulesAt w (RulesAt p);
     OmitStages := RefOmitStages p;
     OmitManagedFields := RefOmitManagedFields p |}.

Section InMemory.

Variable rangeKeys : nat -> gmap Stage bool -> list Stage.

(** [NewPolicyRuleEvaluator] on a policy in memory: the loop stores the
    normalised rules into the array before the dump is built, so they
    stay there when the dump panics; the evaluator returned is the copy
    of the struct. *)
Definition NewPolicyRuleEvaluatorAt (policy : PolicyRef) (w : Process)
  : outcome PolicyRef * Process :=
  let rules :=
    normalizeRulesFrom rangeKeys 0 (RefOmitStages policy)
      (rulesAt w (RulesAt policy)) in
  let stored := <[RulesAt policy := rules]> (arrays w) in
  match dumpRules rules with
  | Panicked reason =>
      (Panicked reason, {| arrays := stored; stdout := stdout w |})
  | Returned text =>
      (Returned policy,
       {| arrays := stored; stdout := stdout w ++ [Println text] |})
  end.

End InMemory.

(** [EvaluatePolicyRule] on an evaluator in memory: the rules are read
    through the slice header at the time of the call; the method
    assigns to nothing behind its receiver. *)
Definition EvaluatePolicyRuleAt (p : PolicyRef) (attrs : Attributes) (w : Process)
  : RequestAuditConfigWithLevel * Process :=
  let '(config, out) :=
    EvaluatePolicyRule {| EvaluatorPolicy := policyAt w p |} attrs (stdout w) in
  (config, {| arrays := arrays w; stdout := out |}).

(** A run of calls on one evaluator, one request after the other. *)
Fixpoint EvaluateEachAt (p : PolicyRef) (requests : list Attributes) (w : Process)
  : list RequestAuditConfigWithLevel * Process :=
  match requests with
  | [] => ([], w)
  | attrs :: rest =>
      let '(config, w) := EvaluatePolicyRuleAt p attrs w in
      let '(configs, w) := EvaluateEachAt p rest w in
      (config :: configs, w)
  end.

(** ** Sample policies and requests

    The inputs of the spec's scenarios, used below to run the checker. *)
Module Samples.

(** A rule that constrains nothing but the resources. *)
Definition resourceRule (lvl : Level) (resources : list GroupResources)
  : PolicyRule :=
  {| RuleLevel := lvl;
     Users := [];
     UserGroups := [];
     Verbs := [];
     RuleResources := resources;
     Namespaces := [];
     NonResourceURLs := [];
     RuleOmitStages := [];
     RuleOmitManagedFields := None |}.

(** A typed-resource request from an anonymous requester. *)
Definition resourceRequest (verb apiGroup resource subresource : string)
  : Attributes :=
  {| GetUser := None;
     GetVerb := verb;
     IsReadOnly := true;
     GetNamespace := "default";
     GetResource := resource;
     GetSubresource := subresource;
     GetName := "web-0";
     GetAPIGroup := apiGroup;
     GetAPIVersion := "v1";
     IsResourceRequest := true;
     GetPath := "" |}.

(** A non-resource request from an anonymous requester. *)
Definition pathRequest (path : string) : Attributes :=
  {| GetUser := None;
     GetVerb := "get";
     IsReadOnly := true;
     GetNamespace := "";
     GetResource := "";
     GetSubresource := "";
     GetName := "";
     GetAPIGroup := "";
     GetAPIVersion := "";
     IsResourceRequest := false;
     GetPath := path |}.

(** Scenario 3: [{resources:[{apiGroup:"", resourceTypes:["pods/*"]}]}]. *)
Definition podsSubresources : PolicyRule :=
  resourceRule "Metadata"
    [ {| Group := ""; Resources := ["pods/*"]; ResourceNames := [] |} ].

(** Scenario 1: [{verbs:["get"], resources:[{"", ["pods"]}], level:"Metadata"}]. *)
Definition getPods : PolicyRule :=
  {| RuleLevel := "Metadata";
     Users := [];
     UserGroups := [];
     Verbs := ["get"];
     RuleResources :=
       [ {| Group := ""; Resources := ["pods"]; ResourceNames := [] |} ];
     Namespaces := [];
     NonResourceURLs := [];
     RuleOmitStages := ["ResponseComplete"];
     RuleOmitManagedFields := Some true |}.

(** A catch-all rule declared after [getPods]. *)
Definition everything : PolicyRule :=
  {| RuleLevel := "RequestResponse";
     Users := [];
     UserGroups := [];
     Verbs := [];
     RuleResources := [];
     Namespaces := [];
     NonResourceURLs := [];
     RuleOmitStages := [];
     RuleOmitManagedFields := Some false |}.

(** A rule for one named user. *)
Definition adminOnly : PolicyRule :=
  {| RuleLevel := "Request";
     Users := ["admin"];
     UserGroups := [];
     Verbs := [];
     RuleResources := [];
     Namespaces := [];
     NonResourceURLs := [];
     RuleOmitStages := [];
     RuleOmitManagedFields := Some false |}.

(** A rule whose only tuple names the API group ["*"]. *)
Definition starGroup : PolicyRule :=
  resourceRule "Metadata"
    [ {| Group := "*"; Resources := ["*"]; ResourceNames := [] |} ].

Definition policyOf (rules : list PolicyRule) : Policy :=
  {| Rules := rules;
     OmitStages := ["RequestReceived"];
     OmitManagedFields := false |}.

(** One way the runtime may walk a map: the order of [map_to_list]. *)
Definition listedOrder (_ : nat) (m : gmap Stage bool) : list Stage :=
  (map_to_list m).*1.

(** Another way: the reverse of that order. *)
Definition reversedOrder (_ : nat) (m : gmap Stage bool) : list Stage :=
  reverse (map_to_list m).*1.

(** A rule for the members of one group, on named objects of two
    namespaces, which also lists a non-resource path. *)
Definition opsSecrets : PolicyRule :=
  {| RuleLevel := "Request";
     Users := [];
     UserGroups := ["ops"];
     Verbs := ["get"; "list"];
     RuleResources :=
       [ {| Group := "apps"; Resources := []; ResourceNames := ["web-0"] |};
         {| Group := "";
            Resources := ["secrets"; "*/status"];
            ResourceNames := ["web-0"] |} ];
     Namespaces := ["default"; "kube-system"];
     NonResourceURLs := ["/metrics"];
     RuleOmitStages := ["ResponseStarted"; "RequestReceived"];
     RuleOmitManagedFields := None |}.

(** The same rule with its tuples and their specs in another order. *)
Definition opsSecretsReordered : PolicyRule :=
  {| RuleLevel := "Request";
     Users := [];
     UserGroups := ["ops"];
     Verbs := ["get"; "list"];
     RuleResources :=
       [ {| Group := "";
            Resources := ["*/status"; "secrets"];
            ResourceNames := ["web-0"] |};
         {| Group := "apps"; Resources := []; ResourceNames := ["web-0"] |} ];
     Namespaces := ["default"; "kube-system"];
     NonResourceURLs := [];
     RuleOmitStages := [];
     RuleOmitManagedFields := None |}.

(** A rule on non-resource paths only. *)
Definition healthChecks : PolicyRule :=
  {| RuleLevel := "None";
     Users := [];
     UserGroups := [];
     Verbs := [];
     RuleResources := [];
     Namespaces := [];
     NonResourceURLs := ["/healthz*"; "/version"];
     RuleOmitStages := [];
     RuleOmitManagedFields := Some true |}.

(** A process whose only array, at address 7, holds two rules that both
    set [OmitManagedFields], and the policy that refers to it. *)
Definition twoRulesProcess : Process :=
  {| arrays := {[ 7 := [getPods; everything] ]}; stdout := [] |}.

Definition twoRulesPolicy : PolicyRef :=
  {| RulesAt := 7;
     RefOmitStages := ["RequestReceived"; "Panic"];
     RefOmitManagedFields := false |}.

Definition alice : user.Info :=
  {| user.GetName := "alice"; user.GetGroups := ["dev"; "ops"] |}.

(** A typed-resource request made by [alice]. *)
Definition aliceRequest (verb apiGroup resource subresource : string)
  : Attributes :=
  {| GetUser := Some alice;
     GetVerb := verb;
     IsReadOnly := true;
     GetNamespace := "default";
     GetResource := resource;
     GetSubresource := subresource;
     GetName := "web-0";
     GetAPIGroup := apiGroup;
     GetAPIVersion := "v1";
     IsResourceRequest := true;
     GetPath := "" |}.

(** The same request as [aliceRequest], as a write on another version. *)
Definition aliceRequestV2 (verb apiGroup resource subresource : string)
  : Attributes :=
  {| GetUser := Some alice;
     GetVerb := verb;
     IsReadOnly := false;
     GetNamespace := "default";
     GetResource := resource;
     GetSubresource := subresource;
     GetName := "web-0";
     GetAPIGroup := apiGroup;
     GetAPIVersion := "v2";
     IsResourceRequest := true;
     GetPath := "" |}.

End Samples.

(** ** Comparing rules

    Relations used to state that the order and the repetition of the
    entries of a rule's lists play no part in matching. *)

Definition sameMembers (l l' : list string) : Prop :=
  forall x, x ∈ l <-> x ∈ l'.

Definition sameTuple (gr gr' : GroupResources) : Prop :=
  Group gr = Group gr'
  /\ sameMembers (Resources gr) (Resources gr')
  /\ sameMembers (ResourceNames gr) (ResourceNames gr').

Definition coveredBy (grs grs' : list GroupResources) : Prop :=
  forall gr, gr ∈ grs -> exists gr', gr' ∈ grs' /\ sameTuple gr gr'.

(** The three tests that come before the target of a rule. *)
Definition requesterAccepted (r : PolicyRule) (attrs : Attributes) : Prop :=
  (Users r = []
   \/ exists who, GetUser attrs = Some who /\ user.GetName who ∈ Users r)
  /\ (UserGroups r = []
      \/ exists who group,
           GetUser attrs = Some who
           /\ group ∈ user.GetGroups who /\ group ∈ UserGroups r)
  /\ (Verbs r = [] \/ GetVerb attrs ∈ Verbs r).

(** Whether the byte [c] occurs in [s]. *)
Fixpoint occurs (c : ascii) (s : string) : bool :=
  match s with
  | EmptyString => false
  | String d rest => Ascii.eqb c d || occurs c rest
  end.

(** * Properties *)

(** ** Facts about the string functions *)

Module GoStringsFacts.
Import GoStrings.

Lemma append_cons (c : ascii) (s t : string) :
  String c s +:+ t = String c (s +:+ t).
Proof. reflexivity. Qed.

Lemma append_nil_l (s : string) : "" +:+ s = s.
Proof. reflexivity. Qed.

Lemma append_nil_r (s : string) : s +:+ "" = s.
Proof.
  induction s as [|c s IH]; [done|]. by rewrite append_cons, IH.
Qed.

Lemma append_assoc (s t u : string) : (s +:+ t) +:+ u = s +:+ t +:+ u.
Proof.
  induction s as [|c s IH]; [done|]. by rewrite !append_cons, IH.
Qed.

Lemma length_append (s t : string) :
  String.length (s +:+ t) = String.length s + String.length t.
Proof.
  induction s as [|c s IH]; [done|]. rewrite append_cons. simpl. by rewrite IH.
Qed.

Lemma substring_all (s : string) : substring 0 (String.length s) s = s.
Proof. induction s as [|c s IH]; simpl; [done | by rewrite IH]. Qed.

(** Slicing at [k] cuts a string into two pieces that append back. *)
Lemma substring_split (k : nat) (s : string) :
  k <= String.length s ->
  s = substring 0 k s +:+ substring k (String.length s - k) s.
Proof.
  revert s. induction k as [|k IH]; intros s Hk.
  - rewrite Nat.sub_0_r, substring_all. by destruct s.
  - destruct s as [|c s]; simpl in *; [lia|].
    rewrite append_cons. f_equal. apply IH. lia.
Qed.

Lemma substring_head (p t : string) :
  substring 0 (String.length p) (p +:+ t) = p.
Proof.
  induction p as [|c p IH]; [by destruct t|].
  rewrite append_cons. simpl. by rewrite IH.
Qed.

Lemma substring_tail (p t : string) :
  substring (String.length p) (String.length t) (p +:+ t) = t.
Proof.
  induction p as [|c p IH]; [apply substring_all|].
  by rewrite append_cons.
Qed.

Lemma HasPrefix_true (s prefix : string) :
  HasPrefix s prefix = true <-> exists rest, s = prefix +:+ rest.
Proof.
  unfold HasPrefix. rewrite andb_true_iff, Nat.leb_le, String.eqb_eq. split.
  - intros [Hlen Hsub]. eexists.
    rewrite (substring_split (String.length prefix) s Hlen) at 1.
    by rewrite Hsub.
  - intros [rest ->]. rewrite length_append, substring_head. split; [lia|done].
Qed.

Lemma HasSuffix_true (s suffix : string) :
  HasSuffix s suffix = true <-> exists front, s = front +:+ suffix.
Proof.
  unfold HasSuffix. rewrite andb_true_iff, Nat.leb_le, String.eqb_eq. split.
  - intros [Hlen Hsub].
    exists (substring 0 (String.length s - String.length suffix) s).
    pose proof (substring_split (String.length s - String.length suffix) s)
      as Hcut.
    replace (String.length s - (String.length s - String.length suffix))
      with (String.length suffix) in Hcut by lia.
    rewrite Hsub in Hcut. apply Hcut. lia.
  - intros [front ->]. rewrite length_append. split; [lia|].
    replace (String.length front + String.length suffix - String.length suffix)
      with (String.length front) by lia.
    apply substring_tail.
Qed.

Lemma TrimSuffix_append (front suffix : string) :
  TrimSuffix (front +:+ suffix) suffix = front.
Proof.
  unfold TrimSuffix.
  assert (HasSuffix (front +:+ suffix) suffix = true) as ->
    by (apply HasSuffix_true; eauto).
  rewrite length_append.
  replace (String.length front + String.length suffix - String.length suffix)
    with (String.length front) by lia.
  apply substring_head.
Qed.

Lemma TrimPrefix_append (prefix rest : string) :
  TrimPrefix (prefix +:+ rest) prefix = rest.
Proof.
  unfold TrimPrefix.
  assert (HasPrefix (prefix +:+ rest) prefix = true) as ->
    by (apply HasPrefix_true; eauto).
  rewrite length_append.
  replace (String.length prefix + String.length rest - String.length prefix)
    with (String.length rest) by lia.
  apply substring_tail.
Qed.

(** What [TrimRight] keeps is a prefix of its argument. *)
Lemma TrimRight_prefix (s cutset : string) :
  exists dropped, s = TrimRight s cutset +:+ dropped.
Proof.
  induction s as [|c s [dropped IH]]; simpl; [by exists ""|].
  destruct (TrimRight s cutset) as [|k kept] eqn:Hkept.
  - destruct (inCutset c cutset).
    + by exists (String c s).
    + exists s. by rewrite append_cons.
  - exists dropped. rewrite append_cons. by rewrite <- IH.
Qed.

(** A trailing byte of the cutset makes no difference to [TrimRight]. *)
Lemma TrimRight_snoc (s cutset : string) (c : ascii) :
  inCutset c cutset = true ->
  TrimRight (s +:+ String c "") cutset = TrimRight s cutset.
Proof.
  intros Hc. induction s as [|d s IH].
  - rewrite append_nil_l. simpl. by rewrite Hc.
  - rewrite append_cons. simpl. by rewrite IH.
Qed.

Lemma HasPrefix_trans (s mid short : string) :
  HasPrefix s mid = true -> HasPrefix mid short = true ->
  HasPrefix s short = true.
Proof.
  rewrite !HasPrefix_true. intros [r1 ->] [r2 ->].
  exists (r2 +:+ r1). apply append_assoc.
Qed.

Lemma HasPrefix_TrimRight (s cutset : string) :
  HasPrefix s (TrimRight s cutset) = true.
Proof. apply HasPrefix_true, TrimRight_prefix. Qed.

End GoStringsFacts.

(** ** Membership tests *)

Lemma hasString_true (slice : list string) (value : string) :
  hasString slice value = true <-> value ∈ slice.
Proof.
  induction slice as [|s rest IH]; simpl.
  - split; [done | by intros ?%elem_of_nil].
  - rewrite elem_of_cons. destruct (String.eqb_spec s value) as [->|Hne].
    + split; auto.
    + rewrite IH. split; [auto | intros [?|?]; congruence].
Qed.

Lemma positive_length {A} (l : list A) : (0 <? length l)%nat = true <-> l ≠ [].
Proof.
  destruct l; simpl; split; done.
Qed.

(** ** Resource matching *)

(** A spec ["<type>/*"] is accepted by the third test for the request's
    resource type alone: the subresource is not consulted. *)
Lemma resourceSpecMatches_type_wildcard (resource subresource combined : string) :
  resourceSpecMatches (resource +:+ "/*") resource subresource combined = true.
Proof.
  unfold resourceSpecMatches.
  destruct (_ || _); [done|]. destruct (_ && _); [done|].
  assert (GoStrings.HasSuffix (resource +:+ "/*") "/*" = true) as ->
    by (apply GoStringsFacts.HasSuffix_true; eauto).
  by rewrite GoStringsFacts.TrimSuffix_append, String.eqb_refl.
Qed.

(** The ["pods/*"] rule of scenario 3 matches every typed request for
    pods in the core group, with or without a subresource. *)
Lemma podsSubresources_matches (attrs : Attributes) :
  IsResourceRequest attrs = true ->
  GetAPIGroup attrs = "" ->
  GetResource attrs = "pods" ->
  ruleMatches Samples.podsSubresources attrs = true.
Proof.
  intros Hres Hgroup Hpods.
  unfold ruleMatches, ruleMatchesResource; simpl.
  rewrite Hres, Hgroup, Hpods; simpl.
  by rewrite (resourceSpecMatches_type_wildcard "pods").
Qed.

(** C1. The rule with resource spec ["pods/*"] (apiGroup [""]) matches a
    request for pods with subresource ["log"]; run on the request for
    plain pods, with the empty subresource, the checker reports a match
    as well. *)
Theorem pods_wildcard_on_plain_pods :
  ruleMatches Samples.podsSubresources
    (Samples.resourceRequest "get" "" "pods" "log") = true
  /\ ruleMatchesResource Samples.podsSubresources
       (Samples.resourceRequest "get" "" "pods" "") = true
  /\ ruleMatches Samples.podsSubresources
       (Samples.resourceRequest "get" "" "pods" "") = true.
Proof. repeat split; vm_compute; reflexivity. Qed.

(** A match of the tuple loop names a tuple whose group is the
    request's group. *)
Lemma anyGroupResourcesMatches_group
    (grs : list GroupResources) (apiGroup name resource sub combined : string) :
  anyGroupResourcesMatches grs apiGroup name resource sub combined = true ->
  exists gr, gr ∈ grs /\ Group gr = apiGroup.
Proof.
  induction grs as [|gr rest IH]; simpl; [done|].
  destruct (String.eqb_spec (Group gr) apiGroup) as [Heq|Hne].
  - intros _. exists gr. split; [apply list_elem_of_here | done].
  - intros [gr' [Hin Hg]]%IH. exists gr'. split; [by apply list_elem_of_further | done].
Qed.

(** A tuple of another group is skipped. *)
Lemma anyGroupResourcesMatches_other_groups
    (grs : list GroupResources) (apiGroup name resource sub combined : string) :
  Forall (fun gr => Group gr ≠ apiGroup) grs ->
  anyGroupResourcesMatches grs apiGroup name resource sub combined = false.
Proof.
  induction 1 as [|gr rest Hne _ IH]; simpl; [done|].
  by destruct (String.eqb_spec (Group gr) apiGroup).
Qed.

(** C10. The apiGroup of a resource tuple is compared with the request's
    API group by string equality only: a rule with tuples matches only
    if one of them carries exactly the request's group, so a rule whose
    tuples all name the group ["*"] matches only requests whose group is
    literally ["*"], and rejects every other group. *)
Theorem api_group_is_compared_exactly (r : PolicyRule) (attrs : Attributes) :
  RuleResources r ≠ [] ->
  (ruleMatchesResource r attrs = true ->
   exists gr, gr ∈ RuleResources r /\ Group gr = GetAPIGroup attrs)
  /\ (Forall (fun gr => Group gr = "*") (RuleResources r) ->
      ruleMatchesResource r attrs = true -> GetAPIGroup attrs = "*")
  /\ (Forall (fun gr => Group gr = "*") (RuleResources r) ->
      GetAPIGroup attrs ≠ "*" -> ruleMatches r attrs = false).
Proof.
  intros Hne.
  assert (ruleMatchesResource r attrs = true ->
          exists gr, gr ∈ RuleResources r /\ Group gr = GetAPIGroup attrs) as Hgroup.
  { unfold ruleMatchesResource.
    destruct (negb _); [done|]. destruct (_ && _); [done|].
    destruct (RuleResources r) as [|gr0 rest] eqn:Hrs; [done|].
    change (length (gr0 :: rest) =? 0)%nat with false. cbv iota.
    apply anyGroupResourcesMatches_group. }
  assert (Forall (fun gr => Group gr = "*") (RuleResources r) ->
          ruleMatchesResource r attrs = true -> GetAPIGroup attrs = "*") as Hstar.
  { intros Hall [gr [Hin Hg]]%Hgroup.
    rewrite Forall_forall in Hall. rewrite <- Hg. by apply Hall. }
  split; [done|]. split; [done|].
  intros Hall Hother. unfold ruleMatches.
  destruct (_ && _); [done|]. destruct (_ && _); [done|].
  destruct (_ && _); [done|].
  assert ((0 <? length (RuleResources r))%nat = true) as ->
    by by apply positive_length.
  rewrite orb_true_r.
  destruct (ruleMatchesResource r attrs) eqn:Hm; [|done].
  by destruct Hother; apply Hstar.
Qed.

Lemma api_group_is_compared_exactly_witness :
  ruleMatches Samples.starGroup
    (Samples.resourceRequest "get" "apps" "deployments" "") = false.
Proof.
  refine (proj2 (proj2 (api_group_is_compared_exactly Samples.starGroup
           (Samples.resourceRequest "get" "apps" "deployments" "") _)) _ _).
  - discriminate.
  - repeat constructor.
  - discriminate.
Defined.

(** The group ["*"] does match the request whose group is spelled ["*"]. *)
Example starGroup_literal :
  ruleMatches Samples.starGroup
    (Samples.resourceRequest "get" "*" "deployments" "") = true.
Proof. reflexivity. Qed.

(** ** Identity *)

(** C7. Fail-closed identity check: a rule that declares a non-empty
    [Users] list, or a non-empty [UserGroups] list, does not match a
    request without a requester; the answer is a plain [false], never a
    fault. *)
Theorem anonymous_request_fails_identity_rules (r : PolicyRule) (attrs : Attributes) :
  GetUser attrs = None ->
  Users r ≠ [] \/ UserGroups r ≠ [] ->
  ruleMatches r attrs = false.
Proof.
  intros Hanon Hdecl. unfold ruleMatches. rewrite Hanon.
  destruct Hdecl as [Hu|Hg].
  - apply positive_length in Hu. by rewrite Hu.
  - apply positive_length in Hg. rewrite Hg.
    by destruct (_ && _).
Qed.

Lemma anonymous_request_fails_identity_rules_witness :
  ruleMatches Samples.adminOnly (Samples.pathRequest "/healthz") = false.
Proof.
  apply anonymous_request_fails_identity_rules.
  - reflexivity.
  - left. discriminate.
Defined.

(** ** Non-resource paths *)

Lemma pathMatches_not_trailing_star (path spec : string) :
  GoStrings.HasSuffix spec "*" = false ->
  pathMatches path spec = true <-> path = spec.
Proof.
  intros Hno. unfold pathMatches. rewrite Hno.
  destruct (String.eqb_spec spec "*") as [->|_]; [done|].
  destruct (String.eqb_spec spec path) as [->|Hne]; split; done.
Qed.

Lemma pathMatches_trailing_star (path spec : string) :
  GoStrings.HasSuffix spec "*" = true ->
  pathMatches path spec = true
  <-> GoStrings.HasPrefix path (GoStrings.TrimRight spec "*") = true.
Proof.
  intros Hstar. unfold pathMatches. rewrite Hstar.
  destruct (String.eqb_spec spec "*") as [->|_]; simpl.
  { split; [intros _|done]. apply GoStringsFacts.HasPrefix_true. by exists path. }
  destruct (String.eqb_spec spec path) as [->|_].
  { split; [intros _|done]. apply GoStringsFacts.HasPrefix_TrimRight. }
  by destruct (GoStrings.HasPrefix _ _).
Qed.

(** With one star taken off the end, the rest of the spec still begins
    with everything [TrimRight] keeps. *)
Lemma TrimRight_within_TrimSuffix (spec : string) :
  GoStrings.HasSuffix spec "*" = true ->
  GoStrings.HasPrefix (GoStrings.TrimSuffix spec "*")
                      (GoStrings.TrimRight spec "*") = true.
Proof.
  intros [front ->]%GoStringsFacts.HasSuffix_true.
  rewrite GoStringsFacts.TrimSuffix_append.
  rewrite GoStringsFacts.TrimRight_snoc by done.
  apply GoStringsFacts.HasPrefix_TrimRight.
Qed.

(** C8. Non-resource path matching: the spec ["*"] matches every path;
    a spec that does not end in ["*"] matches exactly the identical
    path; a spec that ends in ["*"] matches every path that begins with
    the spec less its trailing ["*"] (and, all trailing stars being
    dropped, exactly the paths that begin with what is left); so
    ["/api*"] matches ["/api"] and ["/apis/foo"] but not ["/ap"]. *)
Theorem path_spec_semantics :
  (forall path, pathMatches path "*" = true)
  /\ (forall path spec,
        GoStrings.HasSuffix spec "*" = false ->
        pathMatches path spec = true <-> path = spec)
  /\ (forall path spec,
        GoStrings.HasSuffix spec "*" = true ->
        GoStrings.HasPrefix path (GoStrings.TrimSuffix spec "*") = true ->
        pathMatches path spec = true)
  /\ (forall path spec,
        GoStrings.HasSuffix spec "*" = true ->
        pathMatches path spec = true
        <-> GoStrings.HasPrefix path (GoStrings.TrimRight spec "*") = true)
  /\ pathMatches "/api" "/api*" = true
  /\ pathMatches "/apis/foo" "/api*" = true
  /\ pathMatches "/ap" "/api*" = false.
Proof.
  split; [done|].
  split; [apply pathMatches_not_trailing_star|].
  split.
  { intros path spec Hstar Hpre. apply pathMatches_trailing_star; [done|].
    eapply GoStringsFacts.HasPrefix_trans; [exact Hpre|].
    by apply TrimRight_within_TrimSuffix. }
  split; [apply pathMatches_trailing_star|].
  by vm_compute.
Qed.

Lemma path_spec_semantics_witness :
  pathMatches "/healthz/ping" "/healthz*" = true
  /\ (pathMatches "/version" "/version" = true <-> "/version" = "/version")
  /\ (pathMatches "/health" "/healthz*" = true
      <-> GoStrings.HasPrefix "/health" (GoStrings.TrimRight "/healthz*" "*") = true).
Proof.
  destruct path_spec_semantics as (_ & Hexact & Hprefix & Hiff & _).
  split; [|split].
  - apply (Hprefix "/healthz/ping" "/healthz*"); reflexivity.
  - apply (Hexact "/version" "/version"). reflexivity.
  - apply (Hiff "/health" "/healthz*"). reflexivity.
Defined.

(** Scenario 4. *)
Example healthz_paths :
  pathMatches "/healthz/ping" "/healthz*" = true
  /\ pathMatches "/health" "/healthz*" = false.
Proof. by vm_compute. Qed.

(** Every trailing star is dropped, so ["/api**"] accepts ["/apix"]. *)
Example doubled_star : pathMatches "/apix" "/api**" = true.
Proof. reflexivity. Qed.

(** ** The first-match scan *)

Lemma scanRules_no_match (p : Policy) (rules : list PolicyRule) (attrs : Attributes) :
  Forall (fun r => ruleMatches r attrs = false) rules ->
  scanRules p rules attrs = defaultConfig p.
Proof. induction 1 as [|r rest Hr _ IH]; simpl; [done | by rewrite Hr]. Qed.

(** The scan returns the configuration of the rule at [k] when that rule
    matches and no rule before it does. *)
Lemma scanRules_first (p : Policy) (rules : list PolicyRule) (attrs : Attributes)
    (k : nat) (rk : PolicyRule) :
  rules !! k = Some rk ->
  ruleMatches rk attrs = true ->
  (forall m rm, m < k -> rules !! m = Some rm -> ruleMatches rm attrs = false) ->
  scanRules p rules attrs = ruleConfig rk (OmitManagedFields p).
Proof.
  revert k. induction rules as [|r rest IH]; intros k Hk Hmatch Hbefore; [done|].
  destruct k as [|k]; simpl in *.
  - injection Hk as ->. by rewrite Hmatch.
  - rewrite (Hbefore 0 r) by (done || lia).
    apply (IH k); [done..|].
    intros m rm Hm Hrm. apply (Hbefore (S m)); [lia | done].
Qed.

(** Among the rules up to a matching one there is a first match. *)
Lemma first_match_exists (rules : list PolicyRule) (attrs : Attributes)
    (i : nat) (ri : PolicyRule) :
  rules !! i = Some ri ->
  ruleMatches ri attrs = true ->
  exists k rk,
    k <= i /\ rules !! k = Some rk /\ ruleMatches rk attrs = true
    /\ forall m rm, m < k -> rules !! m = Some rm -> ruleMatches rm attrs = false.
Proof.
  revert i. induction rules as [|r rest IH]; intros i Hi Hmatch; [done|].
  destruct (ruleMatches r attrs) eqn:Hr.
  - exists 0, r. split_and!; [lia | done | done | intros; lia].
  - destruct i as [|i]; simpl in Hi; [congruence|].
    destruct (IH i Hi Hmatch) as (k & rk & Hle & Hk & Hmk & Hbefore).
    exists (S k), rk. split_and!; [lia | done | done |].
    intros [|m] rm Hm Hrm; simpl in Hrm; [congruence|].
    apply (Hbefore m); [lia | done].
Qed.

(** C4. First-match precedence: when the rules at [i < j] both match the
    request, the returned configuration is that of the first matching
    rule, which is declared no later than [i] and hence before [j]; it
    is the rule at [i] itself when nothing before [i] matches. *)
Theorem first_match_precedence (p : policyRuleEvaluator) (attrs : Attributes)
    (out : Console) (i j : nat) (ri rj : PolicyRule) :
  i < j ->
  Rules (EvaluatorPolicy p) !! i = Some ri ->
  Rules (EvaluatorPolicy p) !! j = Some rj ->
  ruleMatches ri attrs = true ->
  ruleMatches rj attrs = true ->
  (exists k rk,
      k <= i /\ k < j
      /\ Rules (EvaluatorPolicy p) !! k = Some rk
      /\ ruleMatches rk attrs = true
      /\ (forall m rm, m < k -> Rules (EvaluatorPolicy p) !! m = Some rm ->
                       ruleMatches rm attrs = false)
      /\ fst (EvaluatePolicyRule p attrs out)
         = {| CfgLevel := RuleLevel rk;
              CfgOmitStages := RuleOmitStages rk;
              CfgOmitManagedFields :=
                match RuleOmitManagedFields rk with
                | Some b => b
                | None => OmitManagedFields (EvaluatorPolicy p)
                end |})
  /\ ((forall m rm, m < i -> Rules (EvaluatorPolicy p) !! m = Some rm ->
                    ruleMatches rm attrs = false) ->
      fst (EvaluatePolicyRule p attrs out)
      = {| CfgLevel := RuleLevel ri;
           CfgOmitStages := RuleOmitStages ri;
           CfgOmitManagedFields :=
             match RuleOmitManagedFields ri with
             | Some b => b
             | None => OmitManagedFields (EvaluatorPolicy p)
             end |}).
Proof.
  intros Hij Hi Hj Hmi Hmj.
  assert (forall r d, ruleConfig r d
                      = {| CfgLevel := RuleLevel r;
                           CfgOmitStages := RuleOmitStages r;
                           CfgOmitManagedFields :=
                             match RuleOmitManagedFields r with
                             | Some b => b
                             | None => d
                             end |}) as Hconfig.
  { intros r d. unfold ruleConfig, isOmitManagedFields.
    by destruct (RuleOmitManagedFields r). }
  split.
  - destruct (first_match_exists _ attrs i ri Hi Hmi)
      as (k & rk & Hle & Hk & Hmk & Hbefore).
    exists k, rk. split_and!; [done | lia | done | done | done |].
    simpl. rewrite <- Hconfig. by apply (scanRules_first _ _ _ k).
  - intros Hbefore. simpl. rewrite <- Hconfig.
    by apply (scanRules_first _ _ _ i).
Qed.

Lemma first_match_precedence_witness :
  fst (EvaluatePolicyRule
         {| EvaluatorPolicy := Samples.policyOf [Samples.getPods; Samples.everything] |}
         (Samples.resourceRequest "get" "" "pods" "") [])
  = {| CfgLevel := "Metadata";
       CfgOmitStages := ["ResponseComplete"];
       CfgOmitManagedFields := true |}.
Proof.
  refine (proj2 (first_match_precedence
            {| EvaluatorPolicy := Samples.policyOf [Samples.getPods; Samples.everything] |}
            (Samples.resourceRequest "get" "" "pods" "") [] 0 1
            Samples.getPods Samples.everything _ _ _ _ _) _).
  - lia.
  - reflexivity.
  - reflexivity.
  - reflexivity.
  - reflexivity.
  - intros m rm Hm. lia.
Defined.

(** C5. When no rule matches, the default configuration is returned:
    the no-auditing level, the policy-wide [OmitStages] and the
    policy-wide [OmitManagedFields]. *)
Theorem no_match_gives_default (p : policyRuleEvaluator) (attrs : Attributes)
    (out : Console) :
  Forall (fun r => ruleMatches r attrs = false) (Rules (EvaluatorPolicy p)) ->
  fst (EvaluatePolicyRule p attrs out)
  = {| CfgLevel := LevelNone;
       CfgOmitStages := OmitStages (EvaluatorPolicy p);
       CfgOmitManagedFields := OmitManagedFields (EvaluatorPolicy p) |}.
Proof. intros Hnone. simpl. by rewrite scanRules_no_match. Qed.

(** Scenario 2: the verb ["list"] matches no rule. *)
Lemma no_match_gives_default_witness :
  fst (EvaluatePolicyRule
         {| EvaluatorPolicy := Samples.policyOf [Samples.getPods] |}
         (Samples.resourceRequest "list" "" "pods" "") [])
  = {| CfgLevel := "None";
       CfgOmitStages := ["RequestReceived"];
       CfgOmitManagedFields := false |}.
Proof.
  apply (no_match_gives_default
           {| EvaluatorPolicy := Samples.policyOf [Samples.getPods] |}).
  repeat constructor.
Defined.

(** Scenario 1: the verb ["get"] on pods is audited at ["Metadata"]. *)
Example get_pods_metadata :
  CfgLevel (fst (EvaluatePolicyRule
                   {| EvaluatorPolicy := Samples.policyOf [Samples.getPods] |}
                   (Samples.resourceRequest "get" "" "pods" "") []))
  = "Metadata".
Proof. reflexivity. Qed.

(** ** What evaluation does to standard output *)

(** On the request of scenario 1, a call leaves a line on a standard
    output that was empty before it. *)
Lemma evaluation_writes_to_stdout :
  snd (EvaluatePolicyRule
         {| EvaluatorPolicy := Samples.policyOf [Samples.getPods] |}
         (Samples.resourceRequest "get" "" "pods" "") [])
  ≠ [].
Proof. discriminate. Qed.

Lemma scanRules_find (p : Policy) (rules : list PolicyRule) (attrs : Attributes) :
  scanRules p rules attrs
  = match List.find (fun r => ruleMatches r attrs) rules with
    | Some r =>
        {| CfgLevel := RuleLevel r;
           CfgOmitStages := RuleOmitStages r;
           CfgOmitManagedFields :=
             match RuleOmitManagedFields r with
             | Some b => b
             | None => OmitManagedFields p
             end |}
    | None =>
        {| CfgLevel := LevelNone;
           CfgOmitStages := OmitStages p;
           CfgOmitManagedFields := OmitManagedFields p |}
    end.
Proof.
  induction rules as [|r rest IH]; simpl; [done|].
  destruct (ruleMatches r attrs); [|done].
  unfold ruleConfig, isOmitManagedFields. by destruct (RuleOmitManagedFields r).
Qed.

(** A run of calls leaves the arrays alone and prints one dump per
    request, in order, after what was there. *)
Lemma EvaluateEachAt_effect (p : PolicyRef) (requests : list Attributes)
    (w : Process) :
  arrays (snd (EvaluateEachAt p requests w)) = arrays w
  /\ stdout (snd (EvaluateEachAt p requests w))
     = stdout w
       ++ ((fun attrs => Printf attrsFormat (attrsOperands attrs)) <$> requests).
Proof.
  revert w. induction requests as [|attrs rest IH]; intros w; simpl.
  - by rewrite app_nil_r.
  - destruct (IH {| arrays := arrays w;
                    stdout := stdout w
                              ++ [Printf attrsFormat (attrsOperands attrs)] |})
      as [Harrays Hout].
    destruct (EvaluateEachAt p rest _) as [configs w']. simpl in *.
    split; [done|]. by rewrite Hout, <- app_assoc.
Qed.

(** C3, amended. The configuration returned by [EvaluatePolicyRule] is
    a function of the evaluator's rules and the request alone: after
    any run of earlier calls on the evaluator, the call returns the
    level and stages of the first rule in the evaluator's array that
    matches the request, with that rule's [OmitManagedFields] when set
    and the policy's otherwise, or the default configuration when no
    rule matches; so every call with the same request returns the
    identical configuration. No call changes the evaluator: the rule
    arrays in memory are after the calls what they were before. The one
    effect of a call is a dump of the request attributes appended to
    standard output, after everything printed before. *)
Theorem evaluation_is_repeatable (p : PolicyRef) (w : Process)
    (earlier : list Attributes) (attrs : Attributes) :
  let result :=
    EvaluatePolicyRuleAt p attrs (snd (EvaluateEachAt p earlier w)) in
  fst result
  = match List.find (fun r => ruleMatches r attrs) (rulesAt w (RulesAt p)) with
    | Some r =>
        {| CfgLevel := RuleLevel r;
           CfgOmitStages := RuleOmitStages r;
           CfgOmitManagedFields :=
             match RuleOmitManagedFields r with
             | Some b => b
             | None => RefOmitManagedFields p
             end |}
    | None =>
        {| CfgLevel := LevelNone;
           CfgOmitStages := RefOmitStages p;
           CfgOmitManagedFields := RefOmitManagedFields p |}
    end
  /\ (forall earlier',
        fst (EvaluatePolicyRuleAt p attrs (snd (EvaluateEachAt p earlier' w)))
        = fst result)
  /\ arrays (snd result) = arrays w
  /\ stdout (snd result)
     = stdout w
       ++ ((fun a => Printf attrsFormat (attrsOperands a)) <$> earlier)
       ++ [Printf attrsFormat (attrsOperands attrs)].
Proof.
  assert (forall prior,
            fst (EvaluatePolicyRuleAt p attrs (snd (EvaluateEachAt p prior w)))
            = scanRules (policyAt w p) (rulesAt w (RulesAt p)) attrs) as Hcall.
  { intros prior. destruct (EvaluateEachAt_effect p prior w) as [Harrays _].
    unfold EvaluatePolicyRuleAt. simpl.
    unfold policyAt, rulesAt. simpl. rewrite Harrays.
    by rewrite !scanRules_find. }
  destruct (EvaluateEachAt_effect p earlier w) as [Harrays Hout].
  cbv zeta. split_and!.
  - rewrite Hcall. apply scanRules_find.
  - intros earlier'. by rewrite !Hcall.
  - unfold EvaluatePolicyRuleAt. simpl. exact Harrays.
  - unfold EvaluatePolicyRuleAt. simpl. by rewrite Hout, <- app_assoc.
Qed.

(** ** The constant evaluator *)

(** C9. The fake evaluator returns the same configuration for every
    pair of requests: the configured level and stages, with
    [OmitManagedFields] false, and it prints nothing. *)
Theorem fake_evaluator_is_constant (lvl : Level) (stages : list Stage)
    (attrs1 attrs2 : Attributes) (out : Console) :
  fst (fakeEvaluatePolicyRule (NewFakePolicyRuleEvaluator lvl stages) attrs1 out)
  = fst (fakeEvaluatePolicyRule (NewFakePolicyRuleEvaluator lvl stages) attrs2 out)
  /\ fakeEvaluatePolicyRule (NewFakePolicyRuleEvaluator lvl stages) attrs1 out
     = ({| CfgLevel := lvl;
           CfgOmitStages := stages;
           CfgOmitManagedFields := false |}, out).
Proof. done. Qed.

(** ** Construction *)

Lemma writeRule_unset (rule : PolicyRule) (b : string) :
  RuleOmitManagedFields rule = None ->
  writeRule rule b = Panicked nilDereference.
Proof. intros Hnil. unfold writeRule. by rewrite Hnil. Qed.

Lemma writeRule_set (rule : PolicyRule) (b : string) :
  is_Some (RuleOmitManagedFields rule) ->
  exists text, writeRule rule b = Returned text.
Proof. intros [v Hv]. unfold writeRule. rewrite Hv. eauto. Qed.

Lemma writeRules_unset (rules : list PolicyRule) (b : string) :
  Exists (fun r => RuleOmitManagedFields r = None) rules ->
  writeRules rules b = Panicked nilDereference.
Proof.
  intros Hex. revert b. induction Hex as [r rest Hr|r rest _ IH]; intros b; simpl.
  - by rewrite writeRule_unset.
  - destruct (writeRule r b) as [b'|reason] eqn:Hw; simpl; [apply IH|].
    revert Hw. unfold writeRule. by destruct (RuleOmitManagedFields r).
Qed.

Lemma writeRules_set (rules : list PolicyRule) (b : string) :
  Forall (fun r => is_Some (RuleOmitManagedFields r)) rules ->
  exists text, writeRules rules b = Returned text.
Proof.
  intros Hall. revert b. induction Hall as [|r rest Hr _ IH]; intros b; simpl.
  - eauto.
  - destruct (writeRule_set r b Hr) as [b' ->]. simpl. apply IH.
Qed.

Section Construction.

Variable rangeKeys : nat -> gmap Stage bool -> list Stage.

(** The normalisation loop leaves [OmitManagedFields] of every rule as
    it was. *)
Lemma normalizeRulesFrom_unset (i : nat) (omit : list Stage) (rules : list PolicyRule) :
  Exists (fun r => RuleOmitManagedFields r = None) rules ->
  Exists (fun r => RuleOmitManagedFields r = None)
         (normalizeRulesFrom rangeKeys i omit rules).
Proof.
  intros Hex. revert i. induction Hex as [r rest Hr|r rest _ IH]; intros i; simpl.
  - by apply Exists_cons_hd.
  - apply Exists_cons_tl, IH.
Qed.

Lemma normalizeRulesFrom_set (i : nat) (omit : list Stage) (rules : list PolicyRule) :
  Forall (fun r => is_Some (RuleOmitManagedFields r)) rules ->
  Forall (fun r => is_Some (RuleOmitManagedFields r))
         (normalizeRulesFrom rangeKeys i omit rules).
Proof.
  intros Hall. revert i. induction Hall as [|r rest Hr _ IH]; intros i; simpl.
  - constructor.
  - constructor; [done | apply IH].
Qed.

(** A rule without [OmitManagedFields] makes the constructor panic
    before it prints or returns anything. *)
Lemma NewPolicyRuleEvaluator_panics (policy : Policy) (out : Console) :
  Exists (fun r => RuleOmitManagedFields r = None) (Rules policy) ->
  NewPolicyRuleEvaluator rangeKeys policy out = (Panicked nilDereference, out).
Proof.
  intros Hex. unfold NewPolicyRuleEvaluator, dumpRules.
  rewrite writeRules_unset; [done|]. simpl. by apply normalizeRulesFrom_unset.
Qed.

(** When every rule sets [OmitManagedFields], the constructor returns
    the evaluator over the normalised policy and prints one dump. *)
Lemma NewPolicyRuleEvaluator_returns (policy : Policy) (out : Console) :
  Forall (fun r => is_Some (RuleOmitManagedFields r)) (Rules policy) ->
  exists text,
    NewPolicyRuleEvaluator rangeKeys policy out
    = (Returned {| EvaluatorPolicy := normalizePolicy rangeKeys policy |},
       out ++ [Println text]).
Proof.
  intros Hall. unfold NewPolicyRuleEvaluator, dumpRules.
  edestruct writeRules_set as [text ->];
    [by apply (normalizeRulesFrom_set 0 (OmitStages policy)) |].
  simpl. eauto.
Qed.

(** Whatever the constructor returns holds the normalised policy. *)
Lemma NewPolicyRuleEvaluator_holds (policy : Policy) (out out' : Console)
    (ev : policyRuleEvaluator) :
  NewPolicyRuleEvaluator rangeKeys policy out = (Returned ev, out') ->
  EvaluatorPolicy ev = normalizePolicy rangeKeys policy.
Proof.
  unfold NewPolicyRuleEvaluator. destruct (dumpRules _); [|done].
  by intros [= <- _].
Qed.

End Construction.

(** C2. On the policy whose single rule leaves [OmitManagedFields]
    unset, [NewPolicyRuleEvaluator] panics with a nil dereference and
    returns no evaluator, in whatever order its maps are walked and
    whatever was printed before. *)
Theorem constructor_panics_on_unset_omitManagedFields
    (rangeKeys : nat -> gmap Stage bool -> list Stage) (out : Console) :
  NewPolicyRuleEvaluator rangeKeys
    (Samples.policyOf [Samples.podsSubresources]) out
  = (Panicked nilDereference, out).
Proof.
  apply NewPolicyRuleEvaluator_panics. by apply Exists_cons_hd.
Qed.

(** ** Normalised stages *)

Lemma markStages_lookup (m : gmap Stage bool) (sl : list Stage) (s : Stage) :
  is_Some (markStages m sl !! s) <-> is_Some (m !! s) \/ s ∈ sl.
Proof.
  revert m. induction sl as [|x rest IH]; intros m; simpl.
  - rewrite elem_of_nil. tauto.
  - rewrite IH, elem_of_cons, lookup_insert_is_Some'.
    intuition (subst; auto).
Qed.

Lemma markStageLists_lookup (m : gmap Stage bool) (stageLists : list (list Stage))
    (s : Stage) :
  is_Some (markStageLists m stageLists !! s)
  <-> is_Some (m !! s) \/ exists sl, sl ∈ stageLists /\ s ∈ sl.
Proof.
  revert m. induction stageLists as [|sl rest IH]; intros m; simpl.
  - split; [auto | intros [?|(sl & []%elem_of_nil & _)]; done].
  - rewrite IH, markStages_lookup. split.
    + intros [[Hm|Hs]|(sl' & Hin & Hs)]; [by left | right..].
      * exists sl. split; [apply list_elem_of_here | done].
      * exists sl'. split; [by apply list_elem_of_further | done].
    + intros [Hm|(sl' & [->|Hin]%elem_of_cons & Hs)]; [by left; left | by left; right |].
      right. by exists sl'.
Qed.

Lemma scanRules_stages (p : Policy) (rules : list PolicyRule) (attrs : Attributes) :
  CfgOmitStages (scanRules p rules attrs) = OmitStages p
  \/ exists i r,
       rules !! i = Some r /\ ruleMatches r attrs = true
       /\ CfgOmitStages (scanRules p rules attrs) = RuleOmitStages r.
Proof.
  induction rules as [|r rest IH]; simpl; [by left|].
  destruct (ruleMatches r attrs) eqn:Hr.
  - right. by exists 0, r.
  - destruct IH as [IH|(i & r' & Hi & Hm & Hs)]; [by left|].
    right. by exists (S i), r'.
Qed.

Section StageUnion.

Variable rangeKeys : nat -> gmap Stage bool -> list Stage.
Hypothesis rangeKeys_once :
  forall call m, rangeKeys call m ≡ₚ (map_to_list m).*1.

(** [unionStages] returns each stage of its arguments once, and nothing
    else. *)
Lemma unionStages_spec (call : nat) (stageLists : list (list Stage)) :
  NoDup (unionStages rangeKeys call stageLists)
  /\ forall s, s ∈ unionStages rangeKeys call stageLists
               <-> exists sl, sl ∈ stageLists /\ s ∈ sl.
Proof.
  unfold unionStages. split.
  - rewrite rangeKeys_once. apply NoDup_fst_map_to_list.
  - intros s. rewrite rangeKeys_once, list_elem_of_fmap.
    transitivity (is_Some (markStageLists ∅ stageLists !! s)).
    + split.
      * intros ([k v] & -> & Hin). apply elem_of_map_to_list in Hin. by eexists.
      * intros [v Hv]. exists (s, v). split; [done|]. by apply elem_of_map_to_list.
    + rewrite markStageLists_lookup, lookup_empty, is_Some_alt. tauto.
Qed.

Lemma normalizeRulesFrom_length (i0 : nat) (omit : list Stage) (rules : list PolicyRule) :
  length (normalizeRulesFrom rangeKeys i0 omit rules) = length rules.
Proof. revert i0. induction rules as [|r rest IH]; intros i0; simpl; auto. Qed.

Lemma normalizeRulesFrom_lookup (i0 : nat) (omit : list Stage)
    (rules : list PolicyRule) (i : nat) (rule : PolicyRule) :
  rules !! i = Some rule ->
  normalizeRulesFrom rangeKeys i0 omit rules !! i
  = Some (setOmitStages rule
            (unionStages rangeKeys (i0 + i) [omit; RuleOmitStages rule])).
Proof.
  revert i0 i. induction rules as [|r rest IH]; intros i0 i Hi; [done|].
  destruct i as [|i]; simpl in *.
  - injection Hi as ->. by rewrite Nat.add_0_r.
  - rewrite (IH (S i0) i Hi). do 3 f_equal. lia.
Qed.

(** C6. Stage union closure: normalisation keeps the number and the
    order of the rules and changes only their [OmitStages]; the new
    [OmitStages] of each rule has no duplicates and holds exactly the
    stages of the policy-wide [OmitStages] and of the rule's declared
    [OmitStages]. Evaluation merges nothing further: the stages it
    returns are those stored in the matching normalised rule, or the
    policy-wide ones when no rule matches. *)
Theorem stage_union_closure (policy : Policy) :
  length (Rules (normalizePolicy rangeKeys policy)) = length (Rules policy)
  /\ (forall i rule,
        Rules policy !! i = Some rule ->
        exists normalised,
          Rules (normalizePolicy rangeKeys policy) !! i = Some normalised
          /\ NoDup (RuleOmitStages normalised)
          /\ (forall s, s ∈ RuleOmitStages normalised
                        <-> s ∈ OmitStages policy \/ s ∈ RuleOmitStages rule)
          /\ RuleLevel normalised = RuleLevel rule
          /\ Users normalised = Users rule
          /\ UserGroups normalised = UserGroups rule
          /\ Verbs normalised = Verbs rule
          /\ RuleResources normalised = RuleResources rule
          /\ Namespaces normalised = Namespaces rule
          /\ NonResourceURLs normalised = NonResourceURLs rule
          /\ RuleOmitManagedFields normalised = RuleOmitManagedFields rule)
  /\ (forall out out' ev attrs o,
        NewPolicyRuleEvaluator rangeKeys policy out = (Returned ev, out') ->
        CfgOmitStages (fst (EvaluatePolicyRule ev attrs o)) = OmitStages policy
        \/ exists i r,
             Rules (normalizePolicy rangeKeys policy) !! i = Some r
             /\ ruleMatches r attrs = true
             /\ CfgOmitStages (fst (EvaluatePolicyRule ev attrs o))
                = RuleOmitStages r).
Proof.
  split_and!.
  - apply normalizeRulesFrom_length.
  - intros i rule Hi. eexists. split; [|split; [|split]].
    + simpl. by apply normalizeRulesFrom_lookup.
    + apply unionStages_spec.
    + intros s. simpl. rewrite (proj2 (unionStages_spec _ _)).
      split.
      * intros (sl & Hin & Hs).
        apply elem_of_cons in Hin as [->|Hin]; [by left|].
        apply elem_of_cons in Hin as [->|Hin]; [by right|].
        by apply elem_of_nil in Hin.
      * intros [Hs|Hs]; eexists; (split; [|exact Hs]).
        -- apply list_elem_of_here.
        -- apply list_elem_of_further, list_elem_of_here.
    + by split_and!.
  - intros out out' ev attrs o Hnew.
    apply NewPolicyRuleEvaluator_holds in Hnew. simpl. rewrite Hnew.
    apply (scanRules_stages (normalizePolicy rangeKeys policy)).
Qed.

End StageUnion.

Lemma stage_union_closure_witness :
  exists normalised,
    Rules (normalizePolicy Samples.listedOrder
             (Samples.policyOf [Samples.getPods])) !! 0
    = Some normalised
    /\ NoDup (RuleOmitStages normalised)
    /\ (forall s, s ∈ RuleOmitStages normalised
                  <-> s ∈ ["RequestReceived"] \/ s ∈ ["ResponseComplete"])
    /\ RuleLevel normalised = "Metadata"
    /\ Users normalised = []
    /\ UserGroups normalised = []
    /\ Verbs normalised = ["get"]
    /\ RuleResources normalised
       = [ {| Group := ""; Resources := ["pods"]; ResourceNames := [] |} ]
    /\ Namespaces normalised = []
    /\ NonResourceURLs normalised = []
    /\ RuleOmitManagedFields normalised = Some true.
Proof.
  refine (proj1 (proj2 (stage_union_closure Samples.listedOrder _
                          (Samples.policyOf [Samples.getPods])))
            0 Samples.getPods _).
  - intros call m. reflexivity.
  - reflexivity.
Defined.

(** Scenario 5, with the maps walked in the order of [map_to_list]. *)
Example normalized_stages_scenario :
  RuleOmitStages <$> Rules (normalizePolicy Samples.listedOrder
                              (Samples.policyOf [Samples.getPods]))
  = [["ResponseComplete"; "RequestReceived"]].
Proof. by vm_compute. Qed.

(** With every rule's [OmitManagedFields] set, construction returns. *)
Example constructor_returns_scenario :
  fst (NewPolicyRuleEvaluator Samples.listedOrder
         (Samples.policyOf [Samples.getPods; Samples.everything]) [])
  = Returned {| EvaluatorPolicy :=
                  normalizePolicy Samples.listedOrder
                    (Samples.policyOf [Samples.getPods; Samples.everything]) |}.
Proof. by vm_compute. Qed.

(** * Further properties of the checker *)

(** ** The loops as searches *)

Lemma empty_length {A} (l : list A) : (length l =? 0)%nat = true <-> l = [].
Proof. destruct l; simpl; split; done. Qed.

Lemma anyPathMatches_true (path : string) (specs : list string) :
  anyPathMatches path specs = true
  <-> exists spec, spec ∈ specs /\ pathMatches path spec = true.
Proof.
  induction specs as [|spec rest IH]; simpl.
  - split; [done | by intros (? & ?%elem_of_nil & _)].
  - destruct (pathMatches path spec) eqn:Hp.
    + split; [intros _ | done]. exists spec. split; [apply list_elem_of_here | done].
    + rewrite IH. split.
      * intros (spec' & Hin & Hm). exists spec'. split; [by apply list_elem_of_further | done].
      * intros (spec' & [->|Hin]%elem_of_cons & Hm); [congruence|]. by exists spec'.
Qed.

Lemma anyGroupListed_true (userGroups groups : list string) :
  anyGroupListed userGroups groups = true
  <-> exists group, group ∈ groups /\ group ∈ userGroups.
Proof.
  induction groups as [|group rest IH]; simpl.
  - split; [done | by intros (? & ?%elem_of_nil & _)].
  - destruct (hasString userGroups group) eqn:Hg.
    + split; [intros _ | done]. exists group.
      split; [apply list_elem_of_here | by apply hasString_true].
    + rewrite IH. split.
      * intros (g & Hin & Hm). exists g. split; [by apply list_elem_of_further | done].
      * intros (g & [->|Hin]%elem_of_cons & Hm); [|by exists g].
        apply hasString_true in Hm. congruence.
Qed.

Lemma anyResourceSpecMatches_true (gr : GroupResources) (specs : list string)
    (name resource sub combined : string) :
  anyResourceSpecMatches gr specs name resource sub combined = true
  <-> (ResourceNames gr = [] \/ name ∈ ResourceNames gr)
      /\ exists res, res ∈ specs
                     /\ resourceSpecMatches res resource sub combined = true.
Proof.
  assert (((length (ResourceNames gr) =? 0)%nat
           || hasString (ResourceNames gr) name) = true
          <-> ResourceNames gr = [] \/ name ∈ ResourceNames gr) as Hfilter.
  { by rewrite orb_true_iff, empty_length, hasString_true. }
  induction specs as [|res rest IH]; simpl.
  - split; [done | by intros (_ & ? & ?%elem_of_nil & _)].
  - destruct (_ || _) eqn:Hf; simpl.
    + destruct (resourceSpecMatches res resource sub combined) eqn:Hm.
      * split; [intros _ | done]. split; [by apply Hfilter|].
        exists res. split; [apply list_elem_of_here | done].
      * rewrite IH. split.
        -- intros (Hn & res' & Hin & Hr). split; [done|].
           exists res'. split; [by apply list_elem_of_further | done].
        -- intros (Hn & res' & [->|Hin]%elem_of_cons & Hr); [congruence|].
           split; [done|]. by exists res'.
    + rewrite IH. split.
      * intros (Hn%Hfilter & _). congruence.
      * intros (Hn%Hfilter & _). congruence.
Qed.

Lemma anyGroupResourcesMatches_true (grs : list GroupResources)
    (apiGroup name resource sub combined : string) :
  anyGroupResourcesMatches grs apiGroup name resource sub combined = true
  <-> exists gr,
        gr ∈ grs /\ Group gr = apiGroup
        /\ (Resources gr = []
            \/ (ResourceNames gr = [] \/ name ∈ ResourceNames gr)
               /\ exists res, res ∈ Resources gr
                              /\ resourceSpecMatches res resource sub combined = true).
Proof.
  induction grs as [|gr rest IH]; simpl.
  - split; [done | by intros (? & ?%elem_of_nil & _)].
  - assert (forall P : GroupResources -> Prop,
              (exists g, g ∈ rest /\ P g) -> exists g, g ∈ gr :: rest /\ P g) as Hlater.
    { intros P (g & Hin & HP). exists g. split; [by apply list_elem_of_further | done]. }
    destruct (String.eqb_spec (Group gr) apiGroup) as [Heq|Hne].
    + destruct (length (Resources gr) =? 0)%nat eqn:He.
      { split; [intros _ | done]. exists gr.
        split_and!; [apply list_elem_of_here | done | left; by apply empty_length]. }
      destruct (anyResourceSpecMatches _ _ _ _ _ _) eqn:Hs.
      { split; [intros _ | done]. exists gr.
        split_and!; [apply list_elem_of_here | done |].
        right. by apply anyResourceSpecMatches_true. }
      rewrite IH. split; [apply Hlater|].
      intros (g & [->|Hin]%elem_of_cons & Hg & Hacc); [|by exists g].
      destruct Hacc as [Hnil|Hacc].
      * apply empty_length in Hnil. congruence.
      * apply anyResourceSpecMatches_true in Hacc. congruence.
    + rewrite IH. split; [apply Hlater|].
      intros (g & [->|Hin]%elem_of_cons & Hg & Hacc); [done | by exists g].
Qed.

(** ** What a resource rule accepts *)

(** The requests a resource rule accepts, as a search over its lists. *)
Lemma ruleMatchesResource_true (r : PolicyRule) (attrs : Attributes) :
  ruleMatchesResource r attrs = true
  <-> IsResourceRequest attrs = true
      /\ (Namespaces r = [] \/ GetNamespace attrs ∈ Namespaces r)
      /\ (RuleResources r = []
          \/ exists gr,
               gr ∈ RuleResources r
               /\ Group gr = GetAPIGroup attrs
               /\ (Resources gr = []
                   \/ (ResourceNames gr = [] \/ GetName attrs ∈ ResourceNames gr)
                      /\ exists res,
                           res ∈ Resources gr
                           /\ resourceSpecMatches res
                                (GetResource attrs) (GetSubresource attrs)
                                (combinedResourceOf (GetResource attrs)
                                   (GetSubresource attrs)) = true)).
Proof.
  unfold ruleMatchesResource.
  destruct (IsResourceRequest attrs); simpl; [|by split; [|intros [? _]]].
  assert (((0 <? length (Namespaces r))%nat
           && negb (hasString (Namespaces r) (GetNamespace attrs))) = false
          <-> Namespaces r = [] \/ GetNamespace attrs ∈ Namespaces r) as Hns.
  { rewrite andb_false_iff, negb_false_iff, hasString_true.
    destruct (Namespaces r) as [|n ns]; simpl; [split; auto|].
    split; (intros [?|?]; [done | by right]). }
  destruct (_ && _).
  { split; [done|]. intros (_ & Hn%Hns & _). done. }
  destruct (length (RuleResources r) =? 0)%nat eqn:He.
  { apply empty_length in He. split; [intros _|done].
    split_and!; [done | by apply Hns | by left]. }
  rewrite anyGroupResourcesMatches_true. split.
  - intros Hex. split_and!; [done | by apply Hns | by right].
  - intros (_ & _ & [Hnil|Hex]); [|done].
    apply empty_length in Hnil. congruence.
Qed.

Lemma sameMembers_nil (l l' : list string) :
  sameMembers l l' -> l = [] -> l' = [].
Proof.
  intros Hsame ->. destruct l' as [|x l']; [done|].
  exfalso. eapply elem_of_nil, (proj2 (Hsame x)), list_elem_of_here.
Qed.

Lemma sameMembers_sym (l l' : list string) : sameMembers l l' -> sameMembers l' l.
Proof. intros Hsame x. by rewrite (Hsame x). Qed.

Lemma covered_nil (grs grs' : list GroupResources) :
  coveredBy grs' grs -> grs = [] -> grs' = [].
Proof.
  intros Hcov ->. destruct grs' as [|gr' rest]; [done|].
  destruct (Hcov gr' (list_elem_of_here _ _)) as (g & []%elem_of_nil & _).
Qed.

Lemma ruleMatchesResource_covered (r r' : PolicyRule) (attrs : Attributes) :
  sameMembers (Namespaces r) (Namespaces r') ->
  coveredBy (RuleResources r) (RuleResources r') ->
  coveredBy (RuleResources r') (RuleResources r) ->
  ruleMatchesResource r attrs = true -> ruleMatchesResource r' attrs = true.
Proof.
  intros Hns Hcov Hcov'. rewrite !ruleMatchesResource_true.
  intros (Hreq & Hn & Hres). split_and!; [done | |].
  - destruct Hn as [Hnil|Hin]; [left | right].
    + by apply (sameMembers_nil _ _ Hns).
    + by apply Hns.
  - destruct Hres as [Hnil|(gr & Hin & Hg & Hacc)].
    { left. by apply (covered_nil _ _ Hcov'). }
    right. destruct (Hcov gr Hin) as (gr' & Hin' & Hgroup & Hspecs & Hnames).
    exists gr'. split_and!; [done | congruence |].
    destruct Hacc as [Hnil|(Hname & res & Hres & Hm)].
    { left. by apply (sameMembers_nil _ _ Hspecs). }
    right. split.
    + destruct Hname as [Hnil|Hname]; [left | right].
      * by apply (sameMembers_nil _ _ Hnames).
      * by apply Hnames.
    + exists res. split; [by apply Hspecs | done].
Qed.

(** X1. [ruleMatchesResource] accepts exactly the typed-resource
    requests whose namespace is listed (when namespaces are listed) and,
    when tuples are listed, for which some tuple of the request's group
    either lists no resources or passes the name filter and has a spec
    accepting the request. *)
Theorem ruleMatchesResource_accepts (r : PolicyRule) (attrs : Attributes) :
  ruleMatchesResource r attrs = true
  <-> IsResourceRequest attrs = true
      /\ (Namespaces r = [] \/ GetNamespace attrs ∈ Namespaces r)
      /\ (RuleResources r = []
          \/ exists gr,
               gr ∈ RuleResources r
               /\ Group gr = GetAPIGroup attrs
               /\ (Resources gr = []
                   \/ (ResourceNames gr = [] \/ GetName attrs ∈ ResourceNames gr)
                      /\ exists res,
                           res ∈ Resources gr
                           /\ resourceSpecMatches res
                                (GetResource attrs) (GetSubresource attrs)
                                (combinedResourceOf (GetResource attrs)
                                   (GetSubresource attrs)) = true)).
Proof. apply ruleMatchesResource_true. Qed.

(** X2. Acceptance by [ruleMatchesResource] is a disjunction over all
    candidates: two rules whose namespaces, tuples, specs and names are
    the same up to order and repetition accept the same requests. *)
Theorem resource_lists_order_is_irrelevant (r r' : PolicyRule) (attrs : Attributes) :
  sameMembers (Namespaces r) (Namespaces r') ->
  coveredBy (RuleResources r) (RuleResources r') ->
  coveredBy (RuleResources r') (RuleResources r) ->
  ruleMatchesResource r attrs = ruleMatchesResource r' attrs.
Proof.
  intros Hns Hcov Hcov'. apply eq_true_iff_eq. split.
  - by apply ruleMatchesResource_covered.
  - apply ruleMatchesResource_covered; [by apply sameMembers_sym | done..].
Qed.

Lemma opsSecrets_tuples_covered :
  coveredBy (RuleResources Samples.opsSecrets)
            (RuleResources Samples.opsSecretsReordered)
  /\ coveredBy (RuleResources Samples.opsSecretsReordered)
               (RuleResources Samples.opsSecrets).
Proof.
  assert (sameMembers ["secrets"; "*/status"] ["*/status"; "secrets"]) as Hswap.
  { intros x. rewrite !elem_of_cons. tauto. }
  split; intros gr Hin; simpl in Hin;
    apply elem_of_cons in Hin as [->|Hin];
    try (apply elem_of_cons in Hin as [->|Hin]; [|by apply elem_of_nil in Hin]).
  - eexists. split; [apply list_elem_of_further, list_elem_of_here|].
    by split_and!.
  - eexists. split; [apply list_elem_of_here|].
    split_and!; [done | exact Hswap | done].
  - eexists. split; [apply list_elem_of_further, list_elem_of_here|].
    split_and!; [done | by apply sameMembers_sym | done].
  - eexists. split; [apply list_elem_of_here|]. by split_and!.
Qed.

Lemma resource_lists_order_is_irrelevant_witness :
  ruleMatchesResource Samples.opsSecrets
    (Samples.aliceRequest "get" "" "pods" "status")
  = ruleMatchesResource Samples.opsSecretsReordered
      (Samples.aliceRequest "get" "" "pods" "status").
Proof.
  apply resource_lists_order_is_irrelevant.
  - done.
  - apply opsSecrets_tuples_covered.
  - apply opsSecrets_tuples_covered.
Defined.

(** ** What a rule accepts *)

Lemma identity_test (users : list string) (u : option user.Info) :
  ((0 <? length users)%nat
   && match u with
      | None => true
      | Some u => negb (hasString users (user.GetName u))
      end) = false
  <-> users = [] \/ exists who, u = Some who /\ user.GetName who ∈ users.
Proof.
  destruct users as [|x rest]; simpl; [split; auto|].
  destruct u as [who|]; simpl.
  - rewrite negb_false_iff. change (if String.eqb x (user.GetName who) then true
                                    else hasString rest (user.GetName who))
      with (hasString (x :: rest) (user.GetName who)).
    rewrite hasString_true. split.
    + intros Hin. right. by exists who.
    + intros [?|(who' & [= <-] & Hin)]; done.
  - split; [done|]. intros [?|(who & ? & _)]; done.
Qed.

Lemma groups_test (userGroups : list string) (u : option user.Info) :
  ((0 <? length userGroups)%nat
   && match u with
      | None => true
      | Some u => negb (anyGroupListed userGroups (user.GetGroups u))
      end) = false
  <-> userGroups = []
      \/ exists who group,
           u = Some who /\ group ∈ user.GetGroups who /\ group ∈ userGroups.
Proof.
  destruct userGroups as [|x rest]; [simpl; split; auto|].
  change (0 <? length (x :: rest))%nat with true. rewrite andb_true_l.
  destruct u as [who|].
  - rewrite negb_false_iff, anyGroupListed_true. split.
    + intros (group & Hin & Hlisted). right. by exists who, group.
    + intros [?|(who' & group & [= <-] & Hin & Hlisted)]; [done|]. by exists group.
  - split; [done|]. intros [?|(who & group & ? & _)]; done.
Qed.

Lemma verb_test (verbs : list string) (verb : string) :
  ((0 <? length verbs)%nat && negb (hasString verbs verb)) = false
  <-> verbs = [] \/ verb ∈ verbs.
Proof.
  rewrite andb_false_iff, negb_false_iff, hasString_true.
  destruct verbs as [|x rest]; simpl; [split; auto|].
  split; (intros [?|?]; [done | by right]).
Qed.

Lemma ruleMatches_true (r : PolicyRule) (attrs : Attributes) :
  ruleMatches r attrs = true
  <-> requesterAccepted r attrs
      /\ ((Namespaces r ≠ [] \/ RuleResources r ≠ [])
          /\ ruleMatchesResource r attrs = true
          \/ Namespaces r = [] /\ RuleResources r = []
             /\ (NonResourceURLs r = []
                 \/ IsResourceRequest attrs = false
                    /\ exists spec,
                         spec ∈ NonResourceURLs r
                         /\ pathMatches (GetPath attrs) spec = true)).
Proof.
  unfold ruleMatches, requesterAccepted.
  pose proof (identity_test (Users r) (GetUser attrs)) as Hu.
  pose proof (groups_test (UserGroups r) (GetUser attrs)) as Hg.
  pose proof (verb_test (Verbs r) (GetVerb attrs)) as Hv.
  destruct (_ && _); [split; [done | intros ((Hno%Hu & _) & _); done]|].
  destruct (_ && _); [split; [done | intros ((_ & Hno%Hg & _) & _); done]|].
  destruct (_ && _); [split; [done | intros ((_ & _ & Hno%Hv) & _); done]|].
  assert (requester : forall P : Prop, P <->
            ((Users r = [] \/ (exists who, GetUser attrs = Some who
                                           /\ user.GetName who ∈ Users r))
             /\ (UserGroups r = []
                 \/ (exists who group, GetUser attrs = Some who
                       /\ group ∈ user.GetGroups who /\ group ∈ UserGroups r))
             /\ (Verbs r = [] \/ GetVerb attrs ∈ Verbs r)) /\ P).
  { intros P. split; [|tauto]. intros HP.
    split; [|done]. split_and!; [by apply Hu | by apply Hg | by apply Hv]. }
  rewrite <- requester. clear requester Hu Hg Hv.
  destruct (Namespaces r) as [|n ns] eqn:Hns;
    destruct (RuleResources r) as [|gr grs] eqn:Hrs; simpl.
  - destruct (NonResourceURLs r) as [|url urls] eqn:Hurls; simpl.
    + split; [intros _ | done]. right. split_and!; [done | done | by left].
    + unfold ruleMatchesNonResource. rewrite Hurls.
      destruct (IsResourceRequest attrs).
      * split; [done|]. intros [[[?|?] _]|(_ & _ & [?|[? _]])]; done.
      * rewrite anyPathMatches_true. split.
        -- intros Hex. right. split_and!; [done | done | by right].
        -- intros [[[?|?] _]|(_ & _ & [?|[_ Hex]])]; done.
  - split.
    + intros Hm. left. split; [by right | done].
    + intros [[_ Hm]|(_ & ? & _)]; done.
  - split.
    + intros Hm. left. split; [by left | done].
    + intros [[_ Hm]|(? & _)]; done.
  - split.
    + intros Hm. left. split; [by left | done].
    + intros [[_ Hm]|(? & _)]; done.
Qed.

(** X3. A rule matches a request exactly when the requester passes the
    three tests that are declared (name among [Users], one group among
    [UserGroups], verb among [Verbs]; an anonymous requester fails the
    first two) and the target passes: the resource test when the rule
    lists namespaces or resources; otherwise, when the rule lists paths,
    a non-resource request with a matching path; otherwise anything. *)
Theorem ruleMatches_accepts (r : PolicyRule) (attrs : Attributes) :
  ruleMatches r attrs = true
  <-> requesterAccepted r attrs
      /\ ((Namespaces r ≠ [] \/ RuleResources r ≠ [])
          /\ ruleMatchesResource r attrs = true
          \/ Namespaces r = [] /\ RuleResources r = []
             /\ (NonResourceURLs r = []
                 \/ IsResourceRequest attrs = false
                    /\ exists spec,
                         spec ∈ NonResourceURLs r
                         /\ pathMatches (GetPath attrs) spec = true)).
Proof. apply ruleMatches_true. Qed.

(** X4. A rule that declares no user, group, verb, namespace, resource
    or path matches every request. *)
Theorem unconstrained_rule_matches_all (r : PolicyRule) (attrs : Attributes) :
  Users r = [] -> UserGroups r = [] -> Verbs r = [] ->
  Namespaces r = [] -> RuleResources r = [] -> NonResourceURLs r = [] ->
  ruleMatches r attrs = true.
Proof.
  intros Hu Hg Hv Hn Hr Hp. unfold ruleMatches.
  by rewrite Hu, Hg, Hv, Hn, Hr, Hp.
Qed.

Lemma unconstrained_rule_matches_all_witness :
  ruleMatches Samples.everything (Samples.pathRequest "/anything") = true.
Proof. by apply unconstrained_rule_matches_all. Defined.

(** X5. A rule that lists namespaces or resources never matches a
    non-resource request, even when it lists a path that the request
    satisfies. *)
Theorem resource_rule_rejects_path_requests (r : PolicyRule) (attrs : Attributes) :
  Namespaces r ≠ [] \/ RuleResources r ≠ [] ->
  IsResourceRequest attrs = false ->
  ruleMatches r attrs = false.
Proof.
  intros Hdecl Hpath. apply not_true_is_false.
  intros [_ [[_ Hres]|(Hn & Hr & _)]]%ruleMatches_true.
  - apply ruleMatchesResource_true in Hres as [Hreq _]. congruence.
  - by destruct Hdecl.
Qed.

Lemma resource_rule_rejects_path_requests_witness :
  ruleMatches Samples.opsSecrets
    {| GetUser := Some Samples.alice;
       GetVerb := "get";
       IsReadOnly := true;
       GetNamespace := "default";
       GetResource := "";
       GetSubresource := "";
       GetName := "";
       GetAPIGroup := "";
       GetAPIVersion := "";
       IsResourceRequest := false;
       GetPath := "/metrics" |} = false.
Proof.
  apply resource_rule_rejects_path_requests.
  - by left.
  - reflexivity.
Defined.

(** X6. A rule that lists paths but neither namespaces nor resources
    never matches a typed-resource request. *)
Theorem path_rule_rejects_resource_requests (r : PolicyRule) (attrs : Attributes) :
  Namespaces r = [] -> RuleResources r = [] -> NonResourceURLs r ≠ [] ->
  IsResourceRequest attrs = true ->
  ruleMatches r attrs = false.
Proof.
  intros Hn Hr Hp Hreq. apply not_true_is_false.
  intros [_ [[[?|?] _]|(_ & _ & [?|[Hno _]])]]%ruleMatches_true;
    done || congruence.
Qed.

Lemma path_rule_rejects_resource_requests_witness :
  ruleMatches Samples.healthChecks
    (Samples.resourceRequest "get" "" "pods" "") = false.
Proof. by apply path_rule_rejects_resource_requests. Defined.

(** X7. Once a rule lists namespaces or resources, its paths, level
    and omissions play no part in matching: two such rules that agree
    on users, groups, verbs, namespaces and resources match the same
    requests. *)
Theorem paths_are_ignored_by_resource_rules (r r' : PolicyRule) (attrs : Attributes) :
  Users r = Users r' -> UserGroups r = UserGroups r' -> Verbs r = Verbs r' ->
  Namespaces r = Namespaces r' -> RuleResources r = RuleResources r' ->
  Namespaces r ≠ [] \/ RuleResources r ≠ [] ->
  ruleMatches r attrs = ruleMatches r' attrs.
Proof.
  intros Hu Hg Hv Hn Hr Hdecl.
  assert (((0 <? length (Namespaces r))%nat
           || (0 <? length (RuleResources r))%nat) = true) as Htarget.
  { apply orb_true_iff. by rewrite !positive_length. }
  unfold ruleMatches, ruleMatchesResource.
  rewrite <- Hu, <- Hg, <- Hv, <- Hn, <- Hr. by rewrite Htarget.
Qed.

Lemma paths_are_ignored_by_resource_rules_witness :
  ruleMatches Samples.getPods (Samples.resourceRequest "get" "" "pods" "")
  = ruleMatches
      {| RuleLevel := "None";
         Users := [];
         UserGroups := [];
         Verbs := ["get"];
         RuleResources :=
           [ {| Group := ""; Resources := ["pods"]; ResourceNames := [] |} ];
         Namespaces := [];
         NonResourceURLs := ["/healthz*"];
         RuleOmitStages := [];
         RuleOmitManagedFields := None |}
      (Samples.resourceRequest "get" "" "pods" "").
Proof.
  apply paths_are_ignored_by_resource_rules; try reflexivity.
  by right.
Defined.

(** X8. A tuple that lists no resources accepts every resource,
    subresource and object name of its API group: its [ResourceNames]
    is not consulted. *)
Theorem tuple_without_resources_accepts_group
    (r : PolicyRule) (attrs : Attributes) (gr : GroupResources) :
  IsResourceRequest attrs = true ->
  Namespaces r = [] \/ GetNamespace attrs ∈ Namespaces r ->
  gr ∈ RuleResources r ->
  Group gr = GetAPIGroup attrs ->
  Resources gr = [] ->
  ruleMatchesResource r attrs = true.
Proof.
  intros Hreq Hns Hin Hgroup Hnil. apply ruleMatchesResource_true.
  split_and!; [done | done |]. right. exists gr. split_and!; [done | done | by left].
Qed.

Lemma tuple_without_resources_accepts_group_witness :
  ruleMatchesResource Samples.opsSecrets
    {| GetUser := None;
       GetVerb := "delete";
       IsReadOnly := false;
       GetNamespace := "kube-system";
       GetResource := "deployments";
       GetSubresource := "scale";
       GetName := "another-object";
       GetAPIGroup := "apps";
       GetAPIVersion := "v1";
       IsResourceRequest := true;
       GetPath := "" |} = true.
Proof.
  apply (tuple_without_resources_accepts_group _ _
           {| Group := "apps"; Resources := []; ResourceNames := ["web-0"] |}).
  - reflexivity.
  - right. simpl. apply list_elem_of_further, list_elem_of_here.
  - simpl. apply list_elem_of_here.
  - reflexivity.
  - reflexivity.
Defined.

(** ** Resource specs *)

Lemma resourceSpecMatches_exact (resource sub combined : string) :
  resourceSpecMatches combined resource sub combined = true.
Proof. unfold resourceSpecMatches. by rewrite String.eqb_refl. Qed.

Lemma resourceSpecMatches_star (resource sub combined : string) :
  resourceSpecMatches "*" resource sub combined = true.
Proof. unfold resourceSpecMatches. by rewrite orb_true_r. Qed.

Lemma resourceSpecMatches_any_type (resource sub combined : string) :
  sub ≠ "" ->
  resourceSpecMatches ("*/" +:+ sub) resource sub combined = true.
Proof.
  intros Hsub. unfold resourceSpecMatches.
  destruct (_ || _); [done|].
  assert ((0 <? String.length sub)%nat = true) as -> by by destruct sub.
  assert (GoStrings.HasPrefix ("*/" +:+ sub) "*/" = true) as ->
    by (apply GoStringsFacts.HasPrefix_true; eauto).
  by rewrite GoStringsFacts.TrimPrefix_append, String.eqb_refl.
Qed.

Lemma occurs_append (c : ascii) (s t : string) :
  occurs c (s +:+ t) = occurs c s || occurs c t.
Proof.
  induction s as [|d s IH]; [done|].
  rewrite GoStringsFacts.append_cons. simpl. by rewrite IH, orb_assoc.
Qed.

(** A spec without a slash, other than ["*"], accepts no request that
    carries a subresource. *)
Lemma resourceSpecMatches_plain_type (res resource sub : string) :
  res ≠ "*" -> occurs "/" res = false -> sub ≠ "" ->
  resourceSpecMatches res resource sub (combinedResourceOf resource sub) = false.
Proof.
  intros Hstar Hplain Hsub. unfold resourceSpecMatches, combinedResourceOf.
  destruct (String.eqb_spec sub "") as [?|_]; [done|]. simpl.
  destruct (String.eqb_spec res (resource +:+ "/" +:+ sub)) as [->|_].
  { rewrite !occurs_append in Hplain. simpl in Hplain.
    by rewrite orb_true_r in Hplain. }
  destruct (String.eqb_spec res "*") as [?|_]; [done|]. simpl.
  destruct (GoStrings.HasPrefix res "*/") eqn:Hpre.
  { apply GoStringsFacts.HasPrefix_true in Hpre as [rest ->].
    by rewrite occurs_append in Hplain. }
  rewrite andb_false_r.
  destruct (GoStrings.HasSuffix res "/*") eqn:Hsuf; [|done].
  apply GoStringsFacts.HasSuffix_true in Hsuf as [front ->].
  rewrite occurs_append in Hplain. simpl in Hplain.
  by rewrite orb_true_r in Hplain.
Qed.

(** X9. The spec forms the tuple loop accepts: when a tuple of the
    request's group passes the name filter, the rule matches if the
    tuple lists the request's ["type"] (for a request without
    subresource) or ["type/subresource"], or ["*"], or, for a request
    with a subresource, ["*/subresource"]. *)
Theorem listed_spec_forms_are_accepted
    (r : PolicyRule) (attrs : Attributes) (gr : GroupResources) :
  IsResourceRequest attrs = true ->
  Namespaces r = [] \/ GetNamespace attrs ∈ Namespaces r ->
  gr ∈ RuleResources r ->
  Group gr = GetAPIGroup attrs ->
  ResourceNames gr = [] \/ GetName attrs ∈ ResourceNames gr ->
  combinedResourceOf (GetResource attrs) (GetSubresource attrs) ∈ Resources gr
  \/ "*" ∈ Resources gr
  \/ GetSubresource attrs ≠ "" /\ "*/" +:+ GetSubresource attrs ∈ Resources gr ->
  ruleMatchesResource r attrs = true.
Proof.
  intros Hreq Hns Hin Hgroup Hname Hspec. apply ruleMatchesResource_true.
  split_and!; [done | done |]. right. exists gr. split_and!; [done | done |].
  right. split; [done|].
  destruct Hspec as [Hexact|[Hstar|[Hsub Hany]]]; eexists; (split; [eassumption|]).
  - apply resourceSpecMatches_exact.
  - apply resourceSpecMatches_star.
  - by apply resourceSpecMatches_any_type.
Qed.

Lemma listed_spec_forms_are_accepted_witness :
  ruleMatchesResource Samples.opsSecrets
    (Samples.aliceRequest "get" "" "pods" "status") = true.
Proof.
  apply (listed_spec_forms_are_accepted _ _
           {| Group := "";
              Resources := ["secrets"; "*/status"];
              ResourceNames := ["web-0"] |}).
  - reflexivity.
  - right. simpl. apply list_elem_of_here.
  - simpl. apply list_elem_of_further, list_elem_of_here.
  - reflexivity.
  - right. simpl. apply list_elem_of_here.
  - right. right. split; [discriminate|].
    simpl. apply list_elem_of_further, list_elem_of_here.
Defined.

(** X10. If subresource, the resource in the policy must name it: a
    rule whose tuples all list resources, none of them ["*"] and none
    containing a slash, matches no request that carries a
    subresource. *)
Theorem plain_types_reject_subresources (r : PolicyRule) (attrs : Attributes) :
  GetSubresource attrs ≠ "" ->
  RuleResources r ≠ [] ->
  Forall (fun gr =>
            Resources gr ≠ []
            /\ Forall (fun res => res ≠ "*" /\ occurs "/" res = false)
                      (Resources gr))
         (RuleResources r) ->
  ruleMatches r attrs = false.
Proof.
  intros Hsub Hdecl Hplain. apply not_true_is_false.
  intros [_ [[_ Hres]|(_ & ? & _)]]%ruleMatches_true; [|done].
  apply ruleMatchesResource_true in Hres as (_ & _ & [?|(gr & Hin & _ & Hacc)]);
    [done|].
  rewrite Forall_forall in Hplain. destruct (Hplain gr Hin) as [Hne Hspecs].
  destruct Hacc as [?|(_ & res & Hres & Hm)]; [done|].
  rewrite Forall_forall in Hspecs. destruct (Hspecs res Hres) as [Hstar Hslash].
  by rewrite resourceSpecMatches_plain_type in Hm.
Qed.

Lemma plain_types_reject_subresources_witness :
  ruleMatches Samples.getPods (Samples.resourceRequest "get" "" "pods" "log")
  = false.
Proof.
  apply plain_types_reject_subresources.
  - discriminate.
  - discriminate.
  - repeat constructor; discriminate.
Defined.

(** X11. The name filter: a rule whose tuples all list resources and
    all list object names, none of them the request's, matches no
    request for that object. *)
Theorem unlisted_name_is_rejected (r : PolicyRule) (attrs : Attributes) :
  RuleResources r ≠ [] ->
  Forall (fun gr =>
            Resources gr ≠ [] /\ ResourceNames gr ≠ []
            /\ GetName attrs ∉ ResourceNames gr)
         (RuleResources r) ->
  ruleMatches r attrs = false.
Proof.
  intros Hdecl Hnames. apply not_true_is_false.
  intros [_ [[_ Hres]|(_ & ? & _)]]%ruleMatches_true; [|done].
  apply ruleMatchesResource_true in Hres as (_ & _ & [?|(gr & Hin & _ & Hacc)]);
    [done|].
  rewrite Forall_forall in Hnames. destruct (Hnames gr Hin) as (Hne & Hlisted & Hnot).
  by destruct Hacc as [?|([?|?] & _)].
Qed.

Lemma unlisted_name_is_rejected_witness :
  ruleMatches
    {| RuleLevel := "Metadata";
       Users := [];
       UserGroups := [];
       Verbs := [];
       RuleResources :=
         [ {| Group := "";
              Resources := ["configmaps"];
              ResourceNames := ["controller-leader"] |} ];
       Namespaces := [];
       NonResourceURLs := [];
       RuleOmitStages := [];
       RuleOmitManagedFields := None |}
    (Samples.resourceRequest "get" "" "configmaps" "") = false.
Proof.
  apply unlisted_name_is_rejected.
  - discriminate.
  - repeat constructor; try discriminate.
    simpl. intros Hin. apply elem_of_cons in Hin as [Heq|Hin]; [discriminate|].
    by apply elem_of_nil in Hin.
Defined.

(** ** Paths *)

(** X12. A spec ending in ["*"] accepts every extension of a path it
    accepts. *)
Theorem prefix_specs_accept_extensions (path more spec : string) :
  GoStrings.HasSuffix spec "*" = true ->
  pathMatches path spec = true ->
  pathMatches (path +:+ more) spec = true.
Proof.
  intros Hstar Hm. apply pathMatches_trailing_star; [done|].
  apply pathMatches_trailing_star in Hm; [|done].
  apply GoStringsFacts.HasPrefix_true in Hm as [rest Hrest].
  apply GoStringsFacts.HasPrefix_true. exists (rest +:+ more).
  rewrite Hrest at 1. apply GoStringsFacts.append_assoc.
Qed.

Lemma prefix_specs_accept_extensions_witness :
  pathMatches ("/healthz" +:+ "/ping") "/healthz*" = true.
Proof. by apply prefix_specs_accept_extensions. Defined.

(** ** Evaluation *)



Lemma ruleMatches_same_request (r : PolicyRule) (a1 a2 : Attributes) :
  GetUser a1 = GetUser a2 -> GetVerb a1 = GetVerb a2 ->
  GetNamespace a1 = GetNamespace a2 -> GetResource a1 = GetResource a2 ->
  GetSubresource a1 = GetSubresource a2 -> GetName a1 = GetName a2 ->
  GetAPIGroup a1 = GetAPIGroup a2 ->
  IsResourceRequest a1 = IsResourceRequest a2 -> GetPath a1 = GetPath a2 ->
  ruleMatches r a1 = ruleMatches r a2.
Proof.
  intros Hu Hv Hn Hr Hs Hname Hg Hreq Hp.
  unfold ruleMatches, ruleMatchesResource, ruleMatchesNonResource.
  by rewrite Hu, Hv, Hn, Hr, Hs, Hname, Hg, Hreq, Hp.
Qed.

(** X14. The configuration does not depend on [IsReadOnly] or on the
    API version of the request: two requests that agree on user, verb,
    namespace, resource, subresource, name, API group, request kind and
    path get the same configuration. *)
Theorem read_only_and_version_are_ignored (p : policyRuleEvaluator)
    (a1 a2 : Attributes) (out : Console) :
  GetUser a1 = GetUser a2 -> GetVerb a1 = GetVerb a2 ->
  GetNamespace a1 = GetNamespace a2 -> GetResource a1 = GetResource a2 ->
  GetSubresource a1 = GetSubresource a2 -> GetName a1 = GetName a2 ->
  GetAPIGroup a1 = GetAPIGroup a2 ->
  IsResourceRequest a1 = IsResourceRequest a2 -> GetPath a1 = GetPath a2 ->
  fst (EvaluatePolicyRule p a1 out) = fst (EvaluatePolicyRule p a2 out).
Proof.
  intros Hu Hv Hn Hr Hs Hname Hg Hreq Hp. simpl.
  generalize (EvaluatorPolicy p) at 1 3. intros policy.
  induction (Rules (EvaluatorPolicy p)) as [|r rest IH]; simpl; [done|].
  rewrite (ruleMatches_same_request r a1 a2) by done.
  by rewrite IH.
Qed.

Lemma read_only_and_version_are_ignored_witness :
  fst (EvaluatePolicyRule
         {| EvaluatorPolicy := Samples.policyOf [Samples.opsSecrets; Samples.everything] |}
         (Samples.aliceRequest "get" "" "secrets" "") [])
  = fst (EvaluatePolicyRule
           {| EvaluatorPolicy := Samples.policyOf [Samples.opsSecrets; Samples.everything] |}
           (Samples.aliceRequestV2 "get" "" "secrets" "") []).
Proof. apply read_only_and_version_are_ignored; reflexivity. Defined.

(** ** Normalisation and evaluation together *)

Lemma ruleMatches_setOmitStages (rule : PolicyRule) (stages : list Stage)
    (attrs : Attributes) :
  ruleMatches (setOmitStages rule stages) attrs = ruleMatches rule attrs.
Proof. reflexivity. Qed.

Lemma set_or_unset (rules : list PolicyRule) :
  Forall (fun r => is_Some (RuleOmitManagedFields r)) rules
  \/ Exists (fun r => RuleOmitManagedFields r = None) rules.
Proof.
  induction rules as [|r rest [IH|IH]]; [by left | | right; by apply Exists_cons_tl].
  destruct (RuleOmitManagedFields r) as [b|] eqn:Hr.
  - left. constructor; [by rewrite Hr | done].
  - right. by apply Exists_cons_hd.
Qed.

Lemma set_excludes_unset (rules : list PolicyRule) :
  Forall (fun r => is_Some (RuleOmitManagedFields r)) rules ->
  Exists (fun r => RuleOmitManagedFields r = None) rules -> False.
Proof.
  intros Hall Hex. induction Hex as [r rest Hr|r rest _ IH].
  - apply Forall_cons in Hall as [[b Hb] _]. congruence.
  - apply Forall_cons in Hall as [_ Hall]. by apply IH.
Qed.

Section Normalisation.

Variable rangeKeys : nat -> gmap Stage bool -> list Stage.

Lemma scanRules_normalized (p p' : Policy) (i0 : nat) (omit : list Stage)
    (rules : list PolicyRule) (attrs : Attributes) :
  OmitManagedFields p' = OmitManagedFields p ->
  CfgLevel (scanRules p' (normalizeRulesFrom rangeKeys i0 omit rules) attrs)
  = CfgLevel (scanRules p rules attrs)
  /\ CfgOmitManagedFields
       (scanRules p' (normalizeRulesFrom rangeKeys i0 omit rules) attrs)
     = CfgOmitManagedFields (scanRules p rules attrs).
Proof.
  intros Hdefault. revert i0.
  induction rules as [|r rest IH]; intros i0; simpl; [done|].
  rewrite ruleMatches_setOmitStages.
  destruct (ruleMatches r attrs); [|apply IH].
  simpl. unfold isOmitManagedFields. simpl. by rewrite Hdefault.
Qed.

(** X15. Normalisation does not change which rule a request matches:
    evaluated over the normalised policy, every request gets the level
    and the [OmitManagedFields] it gets over the policy as declared,
    in whatever order the maps are walked. *)
Theorem normalisation_keeps_level (policy : Policy) (attrs : Attributes)
    (out : Console) :
  CfgLevel (fst (EvaluatePolicyRule
                   {| EvaluatorPolicy := normalizePolicy rangeKeys policy |}
                   attrs out))
  = CfgLevel (fst (EvaluatePolicyRule {| EvaluatorPolicy := policy |} attrs out))
  /\ CfgOmitManagedFields
       (fst (EvaluatePolicyRule
               {| EvaluatorPolicy := normalizePolicy rangeKeys policy |}
               attrs out))
     = CfgOmitManagedFields
         (fst (EvaluatePolicyRule {| EvaluatorPolicy := policy |} attrs out)).
Proof. simpl. by apply scanRules_normalized. Qed.

(** X16. [NewPolicyRuleEvaluator] returns exactly when every rule sets
    [OmitManagedFields]: it then returns the evaluator over the
    normalised policy and prints one dump; it panics exactly when some
    rule leaves the field unset, and then prints nothing. *)
Theorem constructor_returns_iff_fields_set (policy : Policy) (out : Console) :
  (Forall (fun r => is_Some (RuleOmitManagedFields r)) (Rules policy)
   <-> exists text,
         NewPolicyRuleEvaluator rangeKeys policy out
         = (Returned {| EvaluatorPolicy := normalizePolicy rangeKeys policy |},
            out ++ [Println text]))
  /\ (Exists (fun r => RuleOmitManagedFields r = None) (Rules policy)
      <-> NewPolicyRuleEvaluator rangeKeys policy out
          = (Panicked nilDereference, out)).
Proof.
  split; split.
  - apply NewPolicyRuleEvaluator_returns.
  - intros [text Hret]. destruct (set_or_unset (Rules policy)) as [?|Hex]; [done|].
    rewrite (NewPolicyRuleEvaluator_panics rangeKeys policy out Hex) in Hret.
    discriminate.
  - apply NewPolicyRuleEvaluator_panics.
  - intros Hpanic. destruct (set_or_unset (Rules policy)) as [Hall|?]; [|done].
    destruct (NewPolicyRuleEvaluator_returns rangeKeys policy out Hall)
      as [text Hret].
    rewrite Hret in Hpanic. discriminate.
Qed.

Hypothesis rangeKeys_once :
  forall call m, rangeKeys call m ≡ₚ (map_to_list m).*1.

Lemma normalized_rule_origin (policy : Policy) (i : nat) (r : PolicyRule) :
  Rules (normalizePolicy rangeKeys policy) !! i = Some r ->
  exists rule,
    Rules policy !! i = Some rule
    /\ r = setOmitStages rule
             (unionStages rangeKeys i [OmitStages policy; RuleOmitStages rule]).
Proof.
  intros Hr. simpl in Hr.
  assert (i < length (Rules policy)) as Hlt.
  { rewrite <- (normalizeRulesFrom_length rangeKeys 0 (OmitStages policy)).
    by apply lookup_lt_Some in Hr. }
  apply lookup_lt_is_Some in Hlt as [rule Hrule]. exists rule. split; [done|].
  rewrite (normalizeRulesFrom_lookup rangeKeys 0 _ _ i rule Hrule) in Hr.
  by injection Hr as <-.
Qed.

(** X17. After construction, the stages returned for any request
    include every policy-wide stage, whether a rule matches the request
    or none does. *)
Theorem policy_stages_are_always_omitted (policy : Policy) (out out' : Console)
    (ev : policyRuleEvaluator) (attrs : Attributes) (o : Console) (s : Stage) :
  NewPolicyRuleEvaluator rangeKeys policy out = (Returned ev, out') ->
  s ∈ OmitStages policy ->
  s ∈ CfgOmitStages (fst (EvaluatePolicyRule ev attrs o)).
Proof.
  intros Hnew Hs. apply NewPolicyRuleEvaluator_holds in Hnew. simpl. rewrite Hnew.
  destruct (scanRules_stages (normalizePolicy rangeKeys policy)
              (Rules (normalizePolicy rangeKeys policy)) attrs)
    as [->|(i & r & Hr & _ & ->)]; [done|].
  apply normalized_rule_origin in Hr as (rule & _ & ->). simpl.
  apply (proj2 (unionStages_spec rangeKeys rangeKeys_once _ _)).
  exists (OmitStages policy). split; [apply list_elem_of_here | done].
Qed.

End Normalisation.

Lemma listedOrder_once (call : nat) (m : gmap Stage bool) :
  Samples.listedOrder call m ≡ₚ (map_to_list m).*1.
Proof. reflexivity. Qed.

Lemma reversedOrder_once (call : nat) (m : gmap Stage bool) :
  Samples.reversedOrder call m ≡ₚ (map_to_list m).*1.
Proof. apply reverse_Permutation. Qed.

Lemma policy_stages_are_always_omitted_witness :
  "RequestReceived"
  ∈ CfgOmitStages
      (fst (EvaluatePolicyRule
              {| EvaluatorPolicy :=
                   normalizePolicy Samples.listedOrder
                     (Samples.policyOf [Samples.getPods; Samples.everything]) |}
              (Samples.resourceRequest "get" "" "pods" "") [])).
Proof.
  apply (policy_stages_are_always_omitted Samples.listedOrder listedOrder_once
           (Samples.policyOf [Samples.getPods; Samples.everything]) []
           [Println
              (match dumpRules
                       (Rules (normalizePolicy Samples.listedOrder
                                 (Samples.policyOf
                                    [Samples.getPods; Samples.everything])))
               with
               | Returned text => text
               | Panicked _ => ""
               end)]).
  - by vm_compute.
  - apply list_elem_of_here.
Defined.

(** ** The policy in memory and the policy as a value *)

(** Run on a policy in memory, the constructor returns or panics as it
    does on the value read through the reference, prints the same, and
    leaves in memory the normalised rules of that value. *)
Lemma NewPolicyRuleEvaluatorAt_value
    (rangeKeys : nat -> gmap Stage bool -> list Stage)
    (policy : PolicyRef) (w : Process) :
  let at_value := NewPolicyRuleEvaluator rangeKeys (policyAt w policy) (stdout w) in
  let in_memory := NewPolicyRuleEvaluatorAt rangeKeys policy w in
  fst in_memory
  = match fst at_value with
    | Returned _ => Returned policy
    | Panicked reason => Panicked reason
    end
  /\ stdout (snd in_memory) = snd at_value
  /\ policyAt (snd in_memory) policy
     = normalizePolicy rangeKeys (policyAt w policy).
Proof.
  unfold NewPolicyRuleEvaluatorAt, NewPolicyRuleEvaluator. simpl.
  assert (forall out rules,
            policyAt {| arrays := <[RulesAt policy := rules]> (arrays w);
                        stdout := out |} policy
            = {| Rules := rules;
                 OmitStages := RefOmitStages policy;
                 OmitManagedFields := RefOmitManagedFields policy |}) as Hread.
  { intros out rules. unfold policyAt, rulesAt. simpl.
    by rewrite lookup_insert_eq. }
  destruct (dumpRules _); simpl; by rewrite Hread.
Qed.

(** ** Running the normalisation again *)

Section Renormalisation.

Variables rangeKeys rangeKeys' : nat -> gmap Stage bool -> list Stage.
Hypothesis rangeKeys_once :
  forall call m, rangeKeys call m ≡ₚ (map_to_list m).*1.
Hypothesis rangeKeys'_once :
  forall call m, rangeKeys' call m ≡ₚ (map_to_list m).*1.

(** X18. The result of [unionStages] is determined, up to the order of
    its entries, by the stages that occur in its arguments: how they
    are spread over the lists, how often they are repeated and how the
    map is walked make no difference. *)
Theorem unionStages_depends_on_members (call call' : nat)
    (stageLists stageLists' : list (list Stage)) :
  (forall s, (exists sl, sl ∈ stageLists /\ s ∈ sl)
             <-> (exists sl, sl ∈ stageLists' /\ s ∈ sl)) ->
  unionStages rangeKeys call stageLists
  ≡ₚ unionStages rangeKeys' call' stageLists'.
Proof.
  intros Hsame.
  destruct (unionStages_spec rangeKeys rangeKeys_once call stageLists)
    as [Hnodup Hin].
  destruct (unionStages_spec rangeKeys' rangeKeys'_once call' stageLists')
    as [Hnodup' Hin'].
  apply NoDup_Permutation; [done | done |].
  intros s. by rewrite Hin, Hin', Hsame.
Qed.

Lemma dumpRules_set (rules : list PolicyRule) :
  Forall (fun r => is_Some (RuleOmitManagedFields r)) rules ->
  exists text, dumpRules rules = Returned text.
Proof.
  intros Hall. unfold dumpRules.
  edestruct (writeRules_set rules) as [text ->]; [done|]. simpl. eauto.
Qed.

Lemma dumpRules_returned (rules : list PolicyRule) (text : string) :
  dumpRules rules = Returned text ->
  Forall (fun r => is_Some (RuleOmitManagedFields r)) rules.
Proof.
  intros Hret. destruct (set_or_unset rules) as [?|Hex]; [done|].
  unfold dumpRules in Hret. by rewrite writeRules_unset in Hret.
Qed.

(** Scanning rules normalised twice against scanning them normalised
    once. *)
Lemma scanRules_renormalized (p p' : Policy) (i0 j0 : nat)
    (rules : list PolicyRule) (attrs : Attributes) :
  OmitStages p' = OmitStages p ->
  CfgOmitStages
    (scanRules p'
       (normalizeRulesFrom rangeKeys' j0 (OmitStages p)
          (normalizeRulesFrom rangeKeys i0 (OmitStages p) rules)) attrs)
  ≡ₚ CfgOmitStages
       (scanRules p (normalizeRulesFrom rangeKeys i0 (OmitStages p) rules) attrs).
Proof.
  intros Homit. revert i0 j0.
  induction rules as [|r rest IH]; intros i0 j0; simpl; [by rewrite Homit|].
  rewrite !ruleMatches_setOmitStages.
  destruct (ruleMatches r attrs); [|apply IH]. simpl.
  destruct (unionStages_spec rangeKeys rangeKeys_once i0
              [OmitStages p; RuleOmitStages r]) as [Hnodup Hin].
  destruct (unionStages_spec rangeKeys' rangeKeys'_once j0
              [OmitStages p;
               unionStages rangeKeys i0 [OmitStages p; RuleOmitStages r]])
    as [Hnodup' Hin'].
  apply NoDup_Permutation; [done | done |].
  intros s. rewrite Hin'. split.
  - intros (sl & [->|Hsl]%elem_of_cons & Hs).
    + apply Hin. exists (OmitStages p). split; [apply list_elem_of_here | done].
    + apply elem_of_cons in Hsl as [->|Hsl]; [done | by apply elem_of_nil in Hsl].
  - intros Hs. eexists. split; [apply list_elem_of_further, list_elem_of_here | done].
Qed.

(** X19. Building a second evaluator from a policy from which one was
    built is harmless. The second construction rewrites the rule array
    that the first evaluator reads, and it returns as the first did;
    the two evaluators are the same, and every request gets from the
    first evaluator, after the second construction, the level and the
    [OmitManagedFields] it got before, and the same stages, in an order
    that may differ. *)
Theorem second_construction_is_harmless (policy first : PolicyRef)
    (w w1 : Process) :
  NewPolicyRuleEvaluatorAt rangeKeys policy w = (Returned first, w1) ->
  exists second w2,
    NewPolicyRuleEvaluatorAt rangeKeys' policy w1 = (Returned second, w2)
    /\ second = first
    /\ rulesAt w2 (RulesAt first)
       = normalizeRulesFrom rangeKeys' 0 (RefOmitStages policy)
           (rulesAt w1 (RulesAt first))
    /\ forall attrs,
         CfgLevel (fst (EvaluatePolicyRuleAt first attrs w2))
         = CfgLevel (fst (EvaluatePolicyRuleAt first attrs w1))
         /\ CfgOmitManagedFields (fst (EvaluatePolicyRuleAt first attrs w2))
            = CfgOmitManagedFields (fst (EvaluatePolicyRuleAt first attrs w1))
         /\ CfgOmitStages (fst (EvaluatePolicyRuleAt first attrs w2))
            ≡ₚ CfgOmitStages (fst (EvaluatePolicyRuleAt first attrs w1)).
Proof.
  unfold NewPolicyRuleEvaluatorAt at 1.
  destruct (dumpRules _) as [text|reason] eqn:Hdump; [|done].
  intros [= <- <-].
  set (rules1 := normalizeRulesFrom rangeKeys 0 (RefOmitStages policy)
                   (rulesAt w (RulesAt policy))) in *.
  set (w1 := {| arrays := <[RulesAt policy := rules1]> (arrays w);
                stdout := stdout w ++ [Println text] |}).
  set (rules2 := normalizeRulesFrom rangeKeys' 0 (RefOmitStages policy) rules1).
  assert (rulesAt w1 (RulesAt policy) = rules1) as Hread.
  { unfold rulesAt, w1. simpl. by rewrite lookup_insert_eq. }
  destruct (dumpRules_set rules2) as [text' Hdump'].
  { apply normalizeRulesFrom_set. by apply (dumpRules_returned _ text). }
  set (w2 := {| arrays := <[RulesAt policy := rules2]> (arrays w1);
                stdout := stdout w1 ++ [Println text'] |}).
  assert (rulesAt w2 (RulesAt policy) = rules2) as Hread'.
  { unfold rulesAt, w2. simpl. by rewrite lookup_insert_eq. }
  exists policy, w2. split_and!.
  - unfold NewPolicyRuleEvaluatorAt. rewrite Hread. fold rules2.
    by rewrite Hdump'.
  - done.
  - by rewrite Hread, Hread'.
  - intros attrs. unfold EvaluatePolicyRuleAt, policyAt. simpl.
    rewrite Hread, Hread'. split_and!.
    + by apply scanRules_normalized.
    + by apply scanRules_normalized.
    + by apply (scanRules_renormalized
                  {| Rules := rules1;
                     OmitStages := RefOmitStages policy;
                     OmitManagedFields := RefOmitManagedFields policy |}
                  _ 0 0 (rulesAt w (RulesAt policy))).
Qed.

End Renormalisation.

Lemma unionStages_depends_on_members_witness :
  unionStages Samples.listedOrder 0
    [["RequestReceived"; "ResponseComplete"]; ["ResponseComplete"]]
  ≡ₚ unionStages Samples.reversedOrder 1
       [["ResponseComplete"]; []; ["RequestReceived"]].
Proof.
  apply (unionStages_depends_on_members Samples.listedOrder Samples.reversedOrder
           listedOrder_once reversedOrder_once).
  intros s. split; intros (sl & Hsl & Hs).
  - apply elem_of_cons in Hsl as [->|Hsl].
    + apply elem_of_cons in Hs as [->|Hs].
      * eexists. split; [do 2 apply list_elem_of_further; apply list_elem_of_here|].
        apply list_elem_of_here.
      * eexists. split; [apply list_elem_of_here | done].
    + apply elem_of_cons in Hsl as [->|Hsl]; [|by apply elem_of_nil in Hsl].
      eexists. split; [apply list_elem_of_here | done].
  - apply elem_of_cons in Hsl as [->|Hsl].
    + eexists. split; [apply list_elem_of_further, list_elem_of_here | done].
    + apply elem_of_cons in Hsl as [->|Hsl]; [by apply elem_of_nil in Hs|].
      apply elem_of_cons in Hsl as [->|Hsl]; [|by apply elem_of_nil in Hsl].
      apply elem_of_cons in Hs as [->|Hs]; [|by apply elem_of_nil in Hs].
      eexists. split; [apply list_elem_of_here | apply list_elem_of_here].
Defined.

Lemma second_construction_is_harmless_witness :
  exists second w2,
    NewPolicyRuleEvaluatorAt Samples.reversedOrder Samples.twoRulesPolicy
      (snd (NewPolicyRuleEvaluatorAt Samples.listedOrder Samples.twoRulesPolicy
              Samples.twoRulesProcess))
    = (Returned second, w2)
    /\ second = Samples.twoRulesPolicy
    /\ rulesAt w2 (RulesAt Samples.twoRulesPolicy)
       = normalizeRulesFrom Samples.reversedOrder 0
           (RefOmitStages Samples.twoRulesPolicy)
           (rulesAt
              (snd (NewPolicyRuleEvaluatorAt Samples.listedOrder
                      Samples.twoRulesPolicy Samples.twoRulesProcess))
              (RulesAt Samples.twoRulesPolicy))
    /\ forall attrs,
         CfgLevel (fst (EvaluatePolicyRuleAt Samples.twoRulesPolicy attrs w2))
         = CfgLevel
             (fst (EvaluatePolicyRuleAt Samples.twoRulesPolicy attrs
                     (snd (NewPolicyRuleEvaluatorAt Samples.listedOrder
                             Samples.twoRulesPolicy Samples.twoRulesProcess))))
         /\ CfgOmitManagedFields
              (fst (EvaluatePolicyRuleAt Samples.twoRulesPolicy attrs w2))
            = CfgOmitManagedFields
                (fst (EvaluatePolicyRuleAt Samples.twoRulesPolicy attrs
                        (snd (NewPolicyRuleEvaluatorAt Samples.listedOrder
                                Samples.twoRulesPolicy Samples.twoRulesProcess))))
         /\ CfgOmitStages
              (fst (EvaluatePolicyRuleAt Samples.twoRulesPolicy attrs w2))
            ≡ₚ CfgOmitStages
                 (fst (EvaluatePolicyRuleAt Samples.twoRulesPolicy attrs
                         (snd (NewPolicyRuleEvaluatorAt Samples.listedOrder
                                 Samples.twoRulesPolicy
                                 Samples.twoRulesProcess)))).
Proof.
  apply (second_construction_is_harmless Samples.listedOrder
           Samples.reversedOrder listedOrder_once reversedOrder_once
           Samples.twoRulesPolicy Samples.twoRulesPolicy
           Samples.twoRulesProcess).
  by vm_compute.
Defined.

(** The stages the first evaluator returns for a request for pods,
    before and after the second construction. *)
Example stages_before_and_after :
  let w1 := snd (NewPolicyRuleEvaluatorAt Samples.listedOrder
                   Samples.twoRulesPolicy Samples.twoRulesProcess) in
  let w2 := snd (NewPolicyRuleEvaluatorAt Samples.reversedOrder
                   Samples.twoRulesPolicy w1) in
  let request := Samples.resourceRequest "get" "" "pods" "" in
  CfgOmitStages (fst (EvaluatePolicyRuleAt Samples.twoRulesPolicy request
                        Samples.twoRulesProcess))
  = ["ResponseComplete"]
  /\ CfgOmitStages (fst (EvaluatePolicyRuleAt Samples.twoRulesPolicy request w1))
     = reverse (CfgOmitStages
                  (fst (EvaluatePolicyRuleAt Samples.twoRulesPolicy request w2))).
Proof. by vm_compute. Qed.

(** Run twice on the policy of [opsSecrets], with the maps walked in
    opposite orders. *)
Example renormalised_stages :
  RuleOmitStages <$> Rules (normalizePolicy Samples.listedOrder
                              (Samples.policyOf [Samples.opsSecrets]))
  = [["ResponseStarted"; "RequestReceived"]]
  /\ RuleOmitStages <$> Rules (normalizePolicy Samples.reversedOrder
                                 (normalizePolicy Samples.listedOrder
                                    (Samples.policyOf [Samples.opsSecrets])))
     = [["RequestReceived"; "ResponseStarted"]].
Proof. by vm_compute. Qed.
